(** * supi-core: the Query singleton (singletons/query/index.js)

    A shallow embedding of the database access layer: the string escaping
    helpers, the format-symbol substitutor, the value converter, the schema
    cache and the chunked batch update, followed by the properties that its
    specification states about them.

    Conventions of the embedding.
    - JavaScript strings are [string]s; the escaping code only ever inspects
      the five ASCII characters backslash, quote, double quote, percent and
      underscore, every other character is carried along untouched.
    - The MariaDB driver is an oracle ([driver]) whose answers may depend on
      everything that happened before; every call to it is recorded in a
      trace of [event]s, so that what the engine asked of the pool can be
      stated and proved.
    - [async] methods are computations of the monad [M] (state and
      exceptions); [try]/[catch] is [try_catch].
    - [this.tableDefinitions] is an array read and written by property
      access, and so is each object [{}] stored in it: the objects the
      engine created are kept with their own properties and their
      prototype, and what the array resolves by itself (its [length], the
      names it inherits) is left to an oracle of the host
      ([host_objects]). *)

From Stdlib Require Import Ascii String ZArith Lia.
From stdpp Require Import gmap strings list.

Set Warnings "-register-all".
Open Scope Z_scope.
Open Scope nat_scope.

(* ================================================================== *)
(** * Part I: definitions                                              *)
(* ================================================================== *)

(** ** Characters and strings *)

Definition chr_backslash : ascii := "092"%char.
Definition chr_squote : ascii := "039"%char.
Definition chr_dquote : ascii := "034"%char.
Definition chr_percent : ascii := "037"%char.
Definition chr_underscore : ascii := "095"%char.
Definition chr_backtick : ascii := "096"%char.
Definition chr_newline : ascii := "010"%char.

Definition str1 (c : ascii) : string := String c EmptyString.
Definition str2 (c d : ascii) : string := String c (String d EmptyString).

(** [s.replace(/c/g, rep)] for a pattern that is one literal character and a
    replacement text without dollar patterns. *)
Fixpoint replaceAll (c : ascii) (rep : string) (s : string) : string :=
  match s with
  | EmptyString => EmptyString
  | String x s' =>
      if Ascii.eqb x c then rep +:+ replaceAll c rep s'
      else String x (replaceAll c rep s')
  end.

(** [Array.prototype.join] on an array of strings. *)
Fixpoint join (sep : string) (l : list string) : string :=
  match l with
  | [] => EmptyString
  | [x] => x
  | x :: rest => x +:+ sep +:+ join sep rest
  end.

Fixpoint starts_with (p s : string) : bool :=
  match p, s with
  | EmptyString, _ => true
  | String _ _, EmptyString => false
  | String a p', String b s' => Ascii.eqb a b && starts_with p' s'
  end.

(** [hay.includes(needle)] *)
Fixpoint includes (needle hay : string) : bool :=
  starts_with needle hay ||
  match hay with
  | EmptyString => false
  | String _ hay' => includes needle hay'
  end.

(** ** escapeString, escapeLikeString, escapeIdentifier *)

(** [string.replace(/\\/g, "\\\\").replace(/'/g, "\\'").replace(/"/g, "\\\"")] *)
Definition escapeString (s : string) : string :=
  replaceAll chr_dquote (str2 chr_backslash chr_dquote)
    (replaceAll chr_squote (str2 chr_backslash chr_squote)
       (replaceAll chr_backslash (str2 chr_backslash chr_backslash) s)).

(** [this.escapeString(string).replace(/%/g, "\\%").replace(/_/g, "\\_")] *)
Definition escapeLikeString (s : string) : string :=
  replaceAll chr_underscore (str2 chr_backslash chr_underscore)
    (replaceAll chr_percent (str2 chr_backslash chr_percent)
       (escapeString s)).

(** [escapeIdentifier] on a string argument (the [typeof] guard of the
    source is then true): only a name containing "chatrooms" is wrapped in
    backticks. *)
Definition escapeIdentifier (s : string) : string :=
  if includes "chatrooms" s then str1 chr_backtick +:+ s +:+ str1 chr_backtick
  else s.

(** The character-by-character reading of the two escaping functions. *)
Definition is_quote_special (c : ascii) : bool :=
  Ascii.eqb c chr_backslash || Ascii.eqb c chr_squote || Ascii.eqb c chr_dquote.

Definition is_like_special (c : ascii) : bool :=
  is_quote_special c || Ascii.eqb c chr_percent || Ascii.eqb c chr_underscore.

Fixpoint escape_chars (special : ascii -> bool) (s : string) : string :=
  match s with
  | EmptyString => EmptyString
  | String c s' =>
      if special c then String chr_backslash (String c (escape_chars special s'))
      else String c (escape_chars special s')
  end.

(** ** The engine's reading of a quoted string literal

    MariaDB's rules for a single-quoted literal (backslash escapes enabled,
    the default SQL mode): [\0 \b \n \r \t \Z] denote control characters,
    [\%] and [\_] keep their backslash, any other escaped character stands
    for itself, and a doubled quote stands for one quote. *)
Definition unescape_char (d : ascii) : string :=
  if Ascii.eqb d "0"%char then str1 "000"%char
  else if Ascii.eqb d "b"%char then str1 "008"%char
  else if Ascii.eqb d "n"%char then str1 "010"%char
  else if Ascii.eqb d "r"%char then str1 "013"%char
  else if Ascii.eqb d "t"%char then str1 "009"%char
  else if Ascii.eqb d "Z"%char then str1 "026"%char
  else if Ascii.eqb d chr_percent then str2 chr_backslash chr_percent
  else if Ascii.eqb d chr_underscore then str2 chr_backslash chr_underscore
  else str1 d.

(** The text after the opening quote: the decoded content, provided the
    literal is closed by a quote that is the last character. *)
Fixpoint literal_body (s : string) : option string :=
  match s with
  | EmptyString => None
  | String c s' =>
      if Ascii.eqb c chr_squote then
        match s' with
        | EmptyString => Some EmptyString
        | String d s'' =>
            if Ascii.eqb d chr_squote
            then option_map (String chr_squote) (literal_body s'')
            else None
        end
      else if Ascii.eqb c chr_backslash then
        match s' with
        | EmptyString => None
        | String d s'' =>
            option_map (String.append (unescape_char d)) (literal_body s'')
        end
      else option_map (String c) (literal_body s')
  end.

Definition parse_literal (s : string) : option string :=
  match s with
  | String q s' => if Ascii.eqb q chr_squote then literal_body s' else None
  | EmptyString => None
  end.

(** The quoted literal that [convertToSQL] and the ["s"] format symbol
    render for a string. *)
Definition quoted (s : string) : string :=
  str1 chr_squote +:+ escapeString s +:+ str1 chr_squote.

(** ** JavaScript values

    The host types the converter dispatches on.  Numbers and points in time
    are kept abstract: the engine only prints them, through [String(n)] and
    through the methods of [sb.Date]. *)
Class Host := {
  num : Type;
  num_to_string : num -> string;        (* String(n) *)
  time : Type;
  Date_toString : time -> string;       (* Date.prototype.toString *)
  sbDate_toString : time -> string;     (* sb.Date.prototype.toString *)
  sqlDate : time -> string;             (* sb.Date.prototype.sqlDate *)
  sqlDateTime : time -> string;         (* sb.Date.prototype.sqlDateTime *)
  sqlTime : time -> string              (* sb.Date.prototype.sqlTime *)
}.

(** [VDate] is a native [Date] that is not an [sb.Date]; [VSbDate] is an
    [sb.Date], which is also an instance of [Date]; [VObject] is any other
    plain object. *)
Inductive value `{Host} : Type :=
| VUndefined
| VNull
| VBoolean (b : bool)
| VNumber (n : num)
| VString (s : string)
| VArray (items : list value)
| VDate (t : time)
| VSbDate (t : time)
| VObject.

Inductive jstype := TUndefined | TObject | TBoolean | TNumber | TString.

Inductive error `{Host} : Type :=
| SbError (message : string) (args : option value)   (* new sb.Error({ message, args }) *)
| TypeError                                          (* raised by the language itself *)
| RangeError                                         (* an array given an invalid length *)
| DriverError.                                       (* a rejected driver promise *)

Inductive result `{Host} (A : Type) : Type :=
| Ok (a : A)
| Thrown (e : error).
Arguments Ok {_ _} a.
Arguments Thrown {_ _} e.

Section Values.
Context `{Host}.

Definition typeof (v : value) : jstype :=
  match v with
  | VUndefined => TUndefined
  | VBoolean _ => TBoolean
  | VNumber _ => TNumber
  | VString _ => TString
  | VNull | VArray _ | VDate _ | VSbDate _ | VObject => TObject
  end.

Definition jstype_eqb (a b : jstype) : bool :=
  match a, b with
  | TUndefined, TUndefined | TObject, TObject | TBoolean, TBoolean
  | TNumber, TNumber | TString, TString => true
  | _, _ => false
  end.

Definition isArray (v : value) : bool :=
  match v with VArray _ => true | _ => false end.

(** [v instanceof Date] *)
Definition instanceof_Date (v : value) : bool :=
  match v with VDate _ | VSbDate _ => true | _ => false end.

(** [v instanceof sb.Date] *)
Definition instanceof_sbDate (v : value) : bool :=
  match v with VSbDate _ => true | _ => false end.

(** The string a value turns into when it is concatenated to a string;
    inside an array, [null] and [undefined] print as the empty string. *)
Fixpoint to_string (v : value) : string :=
  match v with
  | VUndefined => "undefined"
  | VNull => "null"
  | VBoolean true => "true"
  | VBoolean false => "false"
  | VNumber n => num_to_string n
  | VString s => s
  | VArray items =>
      join ","
        (map (fun i => match i with
                       | VUndefined | VNull => EmptyString
                       | _ => to_string i
                       end) items)
  | VDate t => Date_toString t
  | VSbDate t => sbDate_toString t
  | VObject => "[object Object]"
  end.

(** [items.join(",")] *)
Definition array_join (items : list value) : string := to_string (VArray items).

(** Modelled from the spec: the class [sb.Date] (objects/date.js) is not
    part of the sources at hand.  [new sb.Date(d)] normalises a calendar
    date [d] into the structured value for the same point in time. *)
Definition new_sbDate (v : value) : value :=
  match v with
  | VDate t | VSbDate t => VSbDate t
  | _ => v
  end.

(** [this.escapeString(i)] on an arbitrary array element: calling
    [replace] on anything but a string raises a [TypeError]. *)
Definition escapeString_value (v : value) : result string :=
  match v with
  | VString s => Ok (escapeString s)
  | _ => Thrown TypeError
  end.

Fixpoint map_result {A B} (f : A -> result B) (l : list A) : result (list B) :=
  match l with
  | [] => Ok []
  | x :: rest =>
      match f x with
      | Thrown e => Thrown e
      | Ok y =>
          match map_result f rest with
          | Thrown e => Thrown e
          | Ok ys => Ok (y :: ys)
          end
      end
  end.
End Values.

(** ** The format-symbol substitutor and the value converter *)

Section Converter.
Context `{Host}.

(** The [throw] of every type check in [parseFormatSymbol]:
    [new sb.Error({ message: "Expected <kind>, got " + param })]. *)
Definition expected (kind : string) (param : value) : error :=
  SbError ("Expected " +:+ kind +:+ ", got " +:+ to_string param) None.

(** The first two statements of the temporal cases: a native [Date] is
    first turned into an [sb.Date]. *)
Definition normalize_date (param : value) : value :=
  if instanceof_Date param && negb (instanceof_sbDate param)
  then new_sbDate param else param.

Definition parseFormatSymbol (type : string) (param : value) : result string :=
  if String.eqb type "b" then
    match param with
    | VBoolean b => Ok (if b then "1" else "0")
    | _ => Thrown (expected "boolean" param)
    end
  else if String.eqb type "d" then
    match normalize_date param with
    | VSbDate t => Ok (str1 chr_squote +:+ sqlDate t +:+ str1 chr_squote)
    | p => Thrown (expected "sb.Date" p)
    end
  else if String.eqb type "dt" then
    match normalize_date param with
    | VSbDate t => Ok (str1 chr_squote +:+ sqlDateTime t +:+ str1 chr_squote)
    | p => Thrown (expected "sb.Date" p)
    end
  else if String.eqb type "n" then
    match param with
    | VNumber n => Ok (num_to_string n)
    | _ => Thrown (expected "number" param)
    end
  else if String.eqb type "s" then
    match param with
    | VString s => Ok (str1 chr_squote +:+ escapeString s +:+ str1 chr_squote)
    | _ => Thrown (expected "string" param)
    end
  else if String.eqb type "t" then
    match normalize_date param with
    | VSbDate t => Ok (sqlTime t)
    | p => Thrown (expected "sb.Date" p)
    end
  else if String.eqb type "s+" then
    match param with
    | VArray items =>
        match map_result escapeString_value items with
        | Ok escaped =>
            Ok ("(" +:+ join ","
                  (map (fun i => str1 chr_squote +:+ i +:+ str1 chr_squote) escaped)
                +:+ ")")
        | Thrown e => Thrown e
        end
    | _ => Thrown (expected "Array" param)
    end
  else if String.eqb type "n+" then
    match param with
    | VArray items => Ok ("(" +:+ array_join items +:+ ")")
    | _ => Thrown (expected "Array" param)
    end
  else if String.eqb type "*like*" then
    match param with
    | VString s =>
        Ok (" LIKE '%" +:+ escapeLikeString s +:+ "%'")
    | _ => Thrown (expected "string" param)
    end
  else
    Thrown (SbError "Unknown Recordset replace parameter" (Some (VString type))).

Definition is_temporal (targetType : string) : bool :=
  String.eqb targetType "TIME" || String.eqb targetType "DATE"
  || String.eqb targetType "DATETIME" || String.eqb targetType "TIMESTAMP".

Definition convertToSQL (v : value) (targetType : string) : result value :=
  match v with
  | VNull => Ok (VString "NULL")
  | _ =>
    if String.eqb targetType "TINY" then
      match v with
      | VBoolean b => Ok (VString (if b then "1" else "0"))
      | _ => Thrown (SbError "Expected value type: boolean" (Some v))
      end
    else if String.eqb targetType "SET" && isArray v then
      match v with
      | VArray items =>
          Ok (VString (str1 chr_squote +:+ escapeString (array_join items)
                       +:+ str1 chr_squote))
      | _ => Ok v
      end
    else if is_temporal targetType then
      match (if instanceof_Date v then new_sbDate v else v) with
      | VSbDate t =>
          if String.eqb targetType "TIME" then
            Ok (VString (str1 chr_squote +:+ sqlTime t +:+ str1 chr_squote))
          else if String.eqb targetType "DATE" then
            Ok (VString (str1 chr_squote +:+ sqlDate t +:+ str1 chr_squote))
          else
            Ok (VString (str1 chr_squote +:+ sqlDateTime t +:+ str1 chr_squote))
      | v' => Thrown (SbError "Expected value type: date" (Some v'))
      end
    else
      match v with
      | VString s =>
          Ok (VString (str1 chr_squote +:+ escapeString s +:+ str1 chr_squote))
      | _ => Ok v
      end
  end.

(** The host types of the parameters: the five the code tests for, and
    the two lists, which are arrays of strings and of numbers. *)
Inductive host_kind :=
| KBoolean | KDate | KNumber | KString | KArray | KStringList | KNumberList.


Definition has_kind (k : host_kind) (v : value) : bool :=
  match k with
  | KBoolean => jstype_eqb (typeof v) TBoolean
  | KDate => instanceof_Date v
  | KNumber => jstype_eqb (typeof v) TNumber
  | KString => jstype_eqb (typeof v) TString
  | KArray => isArray v
  | KStringList =>
      match v with
      | VArray items => forallb (fun i => jstype_eqb (typeof i) TString) items
      | _ => false
      end
  | KNumberList =>
      match v with
      | VArray items => forallb (fun i => jstype_eqb (typeof i) TNumber) items
      | _ => false
      end
  end.


(** The nine cases of the [switch], each with the type of parameter the
    token stands for: [s+] for a list of strings, [n+] for a list of
    numbers. *)
Definition format_tokens : list (string * host_kind) :=
  [ ("b", KBoolean); ("d", KDate); ("dt", KDate); ("n", KNumber);
    ("s", KString); ("t", KDate); ("s+", KStringList); ("n+", KNumberList);
    ("*like*", KString) ].

Definition recognized (type : string) : bool :=
  existsb (fun tk => String.eqb type (fst tk)) format_tokens.

(** A rendered text as the JavaScript value it is. *)
Definition as_value (r : result string) : result value :=
  match r with
  | Ok s => Ok (VString s)
  | Thrown e => Thrown e
  end.
End Converter.

(** ** The driver, its trace, and the engine's state *)

(** One column of [data.meta] as the driver reports it. *)
Record ColumnMeta := {
  cm_name : string;      (* column.name() *)
  cm_type : string;      (* column.type *)
  cm_flags : Z           (* column.flags *)
}.

Record ColumnDefinition := {
  name : string;
  type : string;
  notNull : bool;
  primaryKey : bool;
  unsigned : bool
}.

Record TableDefinition := {
  td_name : string;
  td_database : string;
  td_path : string;
  td_escapedPath : string;
  td_columns : list ColumnDefinition
}.

(** What [this.tableDefinitions[database][table]] holds once it was
    written: a definition, or [null] after an invalidation. *)
Inductive slot := SNull | SDef (d : TableDefinition).

(** Calls made to the pool and to its connections, with how each settled.
    A connection is named by the rank of its acquisition. *)
Inductive event :=
| EGetConnection (c : option nat)           (* pool.getConnection(); None: rejected *)
| EBeginTransaction (c : nat)               (* connector.beginTransaction() *)
| EQuery (c : nat) (sql : string) (ok : bool)   (* connector.query(sql) *)
| ECommit (c : nat) (ok : bool)             (* connector.commit() *)
| ERollback (c : nat) (ok : bool)           (* connector.rollback() *)
| EEnd (c : nat) (ok : bool).               (* connector.end() *)

(** The driver: each answer may depend on the whole history. *)
Record driver := {
  acquire : list event -> bool;
  run_query : list event -> nat -> string -> option (list ColumnMeta);
  run_commit : list event -> nat -> bool;
  run_rollback : list event -> nat -> bool;
  run_end : list event -> nat -> bool
}.

(** What a read of the cache returns when it is truthy: a definition, or
    some other value of the host, named by the property it was read from. *)
Inductive cache_value :=
| CDef (d : TableDefinition)
| CForeign (property : string).

(** The prototype of an object [{}] that [getDefinition] created: the
    [Object.prototype] it is born with, or what an assignment to
    [__proto__] has put in its place. *)
Inductive prototype :=
| ProtoObject
| ProtoNull
| ProtoDefinition (d : TableDefinition).

(** [this.tableDefinitions[database]] when it is an object created by
    [getDefinition]: its own properties and its prototype. *)
Record container := {
  props : gmap string slot;
  proto : prototype
}.

(** What the engine did to [this.tableDefinitions] other than writing into
    an object of its own: the history on which the answers of the host's
    built-in objects depend. *)
Inductive cache_op :=
| OpDefine (database : string)                 (* tableDefinitions[database] = {} *)
| OpEnsure (database : string)                 (* ... = tableDefinitions[database] || {} *)
| OpStore (database table : string) (d : TableDefinition)
| OpInvalidate (database table : string)
| OpReset.                                     (* tableDefinitions = [] *)

Record world := {
  trace : list event;
  tableDefinitions : gmap string container;    (* own properties holding an object [{}] *)
  host_log : list cache_op
}.

Definition log (e : event) (w : world) : world :=
  {| trace := trace w ++ [e]; tableDefinitions := tableDefinitions w;
     host_log := host_log w |}.

(** The world after further calls to the driver. *)
Definition extend (w : world) (evs : list event) : world :=
  {| trace := trace w ++ evs; tableDefinitions := tableDefinitions w;
     host_log := host_log w |}.

(** Whether a promise of the driver was fulfilled. *)
Definition settled (p : option (list ColumnMeta)) : bool :=
  match p with Some _ => true | None => false end.

Definition is_acquisition (e : event) : bool :=
  match e with EGetConnection (Some _) => true | _ => false end.

Definition conn_count (tr : list event) : nat :=
  length (List.filter is_acquisition tr).

(** [Query.flagMask] *)
Definition flagMask : list (string * Z) :=
  [ ("NOT_NULL", 1); ("PRIMARY_KEY", 2); ("UNIQUE_KEY", 4); ("MULTIPLE_KEY", 8);
    ("BLOB", 16); ("UNSIGNED", 32); ("ZEROFILL_FLAG", 64);
    ("BINARY_COLLATION", 128); ("ENUM", 256); ("AUTO_INCREMENT", 512);
    ("TIMESTAMP", 1024); ("SET", 2048); ("NO_DEFAULT_VALUE_FLAG", 4096);
    ("ON_UPDATE_NOW_FLAG", 8192); ("NUM_FLAG", 32768) ]%Z.

Fixpoint assoc (k : string) (l : list (string * Z)) : Z :=
  match l with
  | [] => 0%Z
  | (k', v) :: rest => if String.eqb k k' then v else assoc k rest
  end.

(** [!!(column.flags & Query.flagMask[flag])] *)
Definition has_flag (flags : Z) (flag : string) : bool :=
  negb (Z.eqb (Z.land flags (assoc flag flagMask)) 0).

Definition decode_column (column : ColumnMeta) : ColumnDefinition :=
  {| name := cm_name column;
     type := cm_type column;
     notNull := has_flag (cm_flags column) "NOT_NULL";
     primaryKey := has_flag (cm_flags column) "PRIMARY_KEY";
     unsigned := has_flag (cm_flags column) "UNSIGNED" |}.

(** ** The monad of [async] methods *)

Inductive completion `{Host} (A : Type) : Type :=
| Returns (a : A)
| Throws (e : error)
| FuelExhausted.
Arguments Returns {_ _} a.
Arguments Throws {_ _} e.
Arguments FuelExhausted {_ _}.

Definition M `{Host} (A : Type) : Type := world -> completion A * world.

Definition ret `{Host} {A} (a : A) : M A := fun w => (Returns a, w).

Definition throw `{Host} {A} (e : error) : M A := fun w => (Throws e, w).

Definition bind `{Host} {A B} (m : M A) (k : A -> M B) : M B :=
  fun w =>
    match m w with
    | (Returns a, w') => k a w'
    | (Throws e, w') => (Throws e, w')
    | (FuelExhausted, w') => (FuelExhausted, w')
    end.

Notation "'let*' x ':=' c1 'in' c2" := (bind c1 (fun x => c2))
  (at level 10, x pattern, c1 at level 100, c2 at level 200).

(** [try { body } catch { handler }] *)
Definition try_catch `{Host} {A} (body handler : M A) : M A :=
  fun w =>
    match body w with
    | (Throws _, w') => handler w'
    | r => r
    end.

Definition modify `{Host} (f : world -> world) : M unit :=
  fun w => (Returns tt, f w).

Definition lift_result `{Host} {A} (r : result A) : M A :=
  match r with
  | Ok a => ret a
  | Thrown e => throw e
  end.

(** [await p] on a promise that has settled. *)
Definition await `{Host} {A} (p : option A) : M A :=
  match p with
  | Some a => ret a
  | None => throw DriverError
  end.

(** ** The engine: raw execution, transactions, batch update *)

Definition updateBatchLimit : nat := 1000.

(** [queries.slice(start, stop)] for indices that are not negative. *)
Definition slice {A} (l : list A) (start stop : nat) : list A :=
  take (stop - start) (drop start l).

Section Engine.
Context `{Host}.
Variable D : driver.

(** [await this.pool.getConnection()] *)
Definition pool_getConnection : M nat :=
  fun w =>
    let c := conn_count (trace w) in
    if acquire D (trace w)
    then (Returns c, log (EGetConnection (Some c)) w)
    else (Throws DriverError, log (EGetConnection None) w).

(** [connector.query(sql)]: the statement is handed to the driver and a
    promise comes back; the call itself never throws, a failure only shows
    when the promise is awaited. *)
Definition connector_query (c : nat) (sql : string)
  : M (option (list ColumnMeta)) :=
  fun w =>
    let p := run_query D (trace w) c sql in
    (Returns p, log (EQuery c sql (settled p)) w).

(** [connector.beginTransaction()], whose promise the source drops. *)
Definition connector_beginTransaction (c : nat) : M unit :=
  modify (log (EBeginTransaction c)).

(** [await connector.commit()] *)
Definition connector_commit (c : nat) : M unit :=
  fun w =>
    if run_commit D (trace w) c
    then (Returns tt, log (ECommit c true) w)
    else (Throws DriverError, log (ECommit c false) w).

(** [await connector.rollback()] *)
Definition connector_rollback (c : nat) : M unit :=
  fun w =>
    if run_rollback D (trace w) c
    then (Returns tt, log (ERollback c true) w)
    else (Throws DriverError, log (ERollback c false) w).

(** [await connector.end()]: hands a pooled connection back to the pool. *)
Definition connector_end (c : nat) : M unit :=
  fun w =>
    if run_end D (trace w) c
    then (Returns tt, log (EEnd c true) w)
    else (Throws DriverError, log (EEnd c false) w).

(** [raw]: the promise of [connector.query] is kept in [result] as it is;
    it is awaited by the final [return] only, after [await connector.end()]. *)
Definition raw (args : list string) : M (list ColumnMeta) :=
  let query := join (str1 chr_newline) args in
  let* connector := pool_getConnection in
  let* result := connector_query connector query in
  let* _ := connector_end connector in
  await result.

Definition getTransaction : M nat :=
  let* connector := pool_getConnection in
  let* _ := connector_beginTransaction connector in
  ret connector.

(** Modelled from the spec: the update builder (record-updater.js) is not
    part of the sources at hand.  In its render-only mode it turns the row,
    configured by the caller's callback, into the pieces of one update
    statement, or fails with a rendering error; [toSQL row] stands for
    [callback(ru, row)] followed by [ru.toSQL()]. *)
Definition render_row {Row} (toSQL : Row -> result (list string)) (row : Row)
  : result string :=
  match toSQL row with
  | Ok sql => Ok (join " " sql +:+ ";")
  | Thrown e => Thrown e
  end.

(** The [for] loop of [batchUpdate], from index [i] on. *)
Fixpoint batch_loop (fuel : nat) (queries : list string) (i : nat) : M unit :=
  match fuel with
  | 0 => fun w => (FuelExhausted, w)
  | S fuel' =>
      if i <=? length queries then
        let* transaction := getTransaction in
        let slice := slice queries i (i + updateBatchLimit) in
        let* _ :=
          try_catch
            (let* p := connector_query transaction (join (str1 chr_newline) slice) in
             let* _ := await p in
             connector_commit transaction)
            (connector_rollback transaction) in
        batch_loop fuel' queries (i + updateBatchLimit)
      else ret tt
  end.

(** [batchUpdate] has no [return]: it resolves to [undefined], here [tt].
    The loop makes at most [length queries / 1000 + 1] iterations and one
    more test, so the fuel given here is never used up
    ([batchUpdate_settles]). *)
Definition batchUpdate {Row} (data : list Row)
    (toSQL : Row -> result (list string)) : M unit :=
  let* queries := lift_result (map_result (render_row toSQL) data) in
  batch_loop (length queries + 2) queries 0.
End Engine.

(** The slices the loop of [batchUpdate] takes, one per iteration. *)
Fixpoint batch_slices (fuel : nat) (queries : list string) (i : nat)
  : list (list string) :=
  match fuel with
  | 0 => []
  | S fuel' =>
      if i <=? length queries
      then slice queries i (i + updateBatchLimit)
             :: batch_slices fuel' queries (i + updateBatchLimit)
      else []
  end.

Definition chunks (queries : list string) : list (list string) :=
  batch_slices (length queries + 2) queries 0.

(** ** The schema cache

    [this.tableDefinitions] is an array used as a map, and each of its
    entries an object literal used as a map; both are read by plain
    property access, which also finds what the object inherits. *)

(** The property names an object literal inherits from Object.prototype;
    each holds a function, but [__proto__], an accessor whose setter
    ignores numbers. *)
Definition object_prototype_names : list string :=
  [ "constructor"; "__defineGetter__"; "__defineSetter__"; "hasOwnProperty";
    "__lookupGetter__"; "__lookupSetter__"; "isPrototypeOf";
    "propertyIsEnumerable"; "toString"; "valueOf"; "__proto__";
    "toLocaleString" ].

Definition inherited (key : string) : bool :=
  existsb (String.eqb key) object_prototype_names.

Definition empty_container : container := {| props := ∅; proto := ProtoObject |}.

(** The own fields of a definition object, read as properties. *)
Definition definition_member (d : TableDefinition) (property : string)
  : option cache_value :=
  let text (s : string) :=
    match s with
    | EmptyString => None
    | String _ _ => Some (CForeign property)
    end in
  if String.eqb property "name" then text (td_name d)
  else if String.eqb property "database" then text (td_database d)
  else if String.eqb property "path" then text (td_path d)
  else if String.eqb property "escapedPath" then text (td_escapedPath d)
  else if String.eqb property "columns" then Some (CForeign property)
  else None.

(** [c[table]] when it is truthy: an own property first, then the
    prototype chain. *)
Definition container_get (c : container) (table : string) : option cache_value :=
  match props c !! table with
  | Some (SDef d) => Some (CDef d)
  | Some SNull => None
  | None =>
      match proto c with
      | ProtoNull => None
      | ProtoObject => if inherited table then Some (CForeign table) else None
      | ProtoDefinition d =>
          if String.eqb table "__proto__" then Some (CDef d)
          else match definition_member d table with
               | Some v => Some v
               | None => if inherited table then Some (CForeign table) else None
               end
      end
  end.

(** [c[table] = s]: an own property is written, or created; but on an
    object that has a prototype and no own property of that name,
    [__proto__] is the inherited accessor, which replaces the prototype. *)
Definition container_set (c : container) (table : string) (s : slot) : container :=
  match props c !! table, proto c with
  | None, (ProtoObject | ProtoDefinition _) =>
      if String.eqb table "__proto__"
      then {| props := props c;
              proto := match s with
                       | SNull => ProtoNull
                       | SDef d => ProtoDefinition d
                       end |}
      else {| props := <[table := s]> (props c); proto := proto c |}
  | _, _ => {| props := <[table := s]> (props c); proto := proto c |}
  end.

(** The statement [getDefinition] hands to [raw]. *)
Definition introspection_sql (database table : string) : string :=
  "SELECT * FROM " +:+ (escapeIdentifier database +:+ "." +:+ escapeIdentifier table)
  +:+ " WHERE 1 = 0".

(** The object [getDefinition] builds from the driver's column metadata. *)
Definition built (database table : string) (data : list ColumnMeta) : TableDefinition :=
  {| td_name := table;
     td_database := database;
     td_path := escapeIdentifier database +:+ "." +:+ escapeIdentifier table;
     td_escapedPath :=
       str1 chr_backtick +:+ escapeIdentifier database
       +:+ String chr_backtick (String "." (str1 chr_backtick))
       +:+ escapeIdentifier table +:+ str1 chr_backtick;
     td_columns := map decode_column data |}.

(** The built-in objects of the host, as far as the cache can reach them.
    A database name is resolved by the host when
    [this.tableDefinitions[database]] is anything but [undefined] although
    the engine created no object under that name: a property the array
    inherits, its [length], or an own property that holds something else.
    What a read or a write through such a name does is the host's affair,
    and depends on what was done before. *)
Inductive ensured `{Host} :=
| Kept                    (* the value is truthy and assigned to itself *)
| Created                 (* the value is falsy and a new object takes its place *)
| Refused (e : error).    (* the value is falsy and the assignment throws *)

Record host_objects `{Host} := {
  resolves : list cache_op -> string -> bool;
  (* tableDefinitions[database] && tableDefinitions[database][table] *)
  host_check : list cache_op -> string -> string -> result (option cache_value);
  (* tableDefinitions[database] = tableDefinitions[database] || {} *)
  host_ensure : list cache_op -> string -> ensured;
  (* tableDefinitions[database][table] = obj, and the value read back *)
  host_store : list cache_op -> string -> string -> TableDefinition -> result cache_value;
  (* tableDefinitions[database][table] = null *)
  host_invalidate : list cache_op -> string -> string -> option error
}.

Definition set_cache (defs : gmap string container) (w : world) : world :=
  {| trace := trace w; tableDefinitions := defs; host_log := host_log w |}.

Definition log_host (op : cache_op) (w : world) : world :=
  {| trace := trace w; tableDefinitions := tableDefinitions w;
     host_log := host_log w ++ [op] |}.

Section SchemaCache.
Context `{Host}.
Variable O : host_objects.
Variable D : driver.

(** [this.tableDefinitions[database] && this.tableDefinitions[database][table]],
    when it is truthy. *)
Definition cached (w : world) (database table : string)
  : result (option cache_value) :=
  match tableDefinitions w !! database with
  | Some c => Ok (container_get c table)
  | None =>
      if resolves O (host_log w) database
      then host_check O (host_log w) database table
      else Ok None
  end.

(** [this.tableDefinitions[database] = this.tableDefinitions[database] || {}] *)
Definition ensure_database (database : string) : M unit :=
  fun w =>
    match tableDefinitions w !! database with
    | Some _ => (Returns tt, w)
    | None =>
        let w' :=
          log_host (OpDefine database)
            (set_cache (<[database := empty_container]> (tableDefinitions w)) w) in
        if resolves O (host_log w) database then
          match host_ensure O (host_log w) database with
          | Kept => (Returns tt, log_host (OpEnsure database) w)
          | Created => (Returns tt, w')
          | Refused e => (Throws e, log_host (OpEnsure database) w)
          end
        else (Returns tt, w')
    end.

(** [this.tableDefinitions[database][table] = obj;
     return this.tableDefinitions[database][table];] *)
Definition store_definition (database table : string) (obj : TableDefinition)
  : M cache_value :=
  fun w =>
    match tableDefinitions w !! database with
    | Some c =>
        (Returns (CDef obj),
         set_cache (<[database := container_set c table (SDef obj)]> (tableDefinitions w)) w)
    | None =>
        if resolves O (host_log w) database then
          match host_store O (host_log w) database table obj with
          | Ok v => (Returns v, log_host (OpStore database table obj) w)
          | Thrown e => (Throws e, log_host (OpStore database table obj) w)
          end
        else (Throws TypeError, w)
    end.

Definition getDefinition (database table : string) : M cache_value :=
  fun w =>
    match cached w database table with
    | Thrown e => (Throws e, w)
    | Ok (Some v) => (Returns v, w)
    | Ok None =>
        (let path := escapeIdentifier database +:+ "." +:+ escapeIdentifier table in
         let escapedPath :=
           str1 chr_backtick +:+ escapeIdentifier database
           +:+ String chr_backtick (String "." (str1 chr_backtick))
           +:+ escapeIdentifier table +:+ str1 chr_backtick in
         let* _ := ensure_database database in
         let* data := raw D [ "SELECT * FROM " +:+ path +:+ " WHERE 1 = 0" ] in
         let obj :=
           {| td_name := table;
              td_database := database;
              td_path := path;
              td_escapedPath := escapedPath;
              td_columns := map decode_column data |} in
         store_definition database table obj) w
    end.

Definition invalidateDefinition (database table : string) : M unit :=
  fun w =>
    match cached w database table with
    | Thrown e => (Throws e, w)
    | Ok None => (Returns tt, w)
    | Ok (Some _) =>
        match tableDefinitions w !! database with
        | Some c =>
            (Returns tt,
             set_cache (<[database := container_set c table SNull]> (tableDefinitions w)) w)
        | None =>
            match host_invalidate O (host_log w) database table with
            | Some e => (Throws e, log_host (OpInvalidate database table) w)
            | None => (Returns tt, log_host (OpInvalidate database table) w)
            end
        end
    end.

Definition invalidateAllDefinitions : M unit :=
  modify (fun w => log_host OpReset (set_cache ∅ w)).
End SchemaCache.

(** The statements the driver was asked to run, in order. *)
Definition queried (tr : list event) : list string :=
  omap (fun e => match e with EQuery _ sql _ => Some sql | _ => None end) tr.

(** ** isTablePresent *)

(** Modelled from the spec: the row-set reader (recordset.js) is not part
    of the sources at hand.  The reader built by [isTablePresent] selects
    the constant 1 from INFORMATION_SCHEMA.TABLES for every row whose
    TABLE_SCHEMA and TABLE_NAME equal the two strings under the comparison
    [same] of the database's collation; [catalog] lists the (schema, table)
    rows of that table. *)
Definition information_schema_tables (same : string -> string -> bool)
    (catalog : list (string * string)) (database table : string) : list Z :=
  map (fun _ => 1%Z)
    (List.filter (fun r => same (fst r) database && same (snd r) table) catalog).

(** [return (exists.length !== 0)] *)
Definition isTablePresent (same : string -> string -> bool)
    (catalog : list (string * string)) (database table : string) : bool :=
  let exists_ := information_schema_tables same catalog database table in
  negb (length exists_ =? 0).

(** The number of catalog rows a pair of names matches. *)
Definition matching_rows (same : string -> string -> bool)
    (catalog : list (string * string)) (database table : string) : nat :=
  length (List.filter (fun r => same (fst r) database && same (snd r) table) catalog).

(** A case-insensitive comparison of ASCII names, as the general_ci
    collations make it. *)
Definition lower (c : ascii) : ascii :=
  let n := nat_of_ascii c in
  if (65 <=? n) && (n <=? 90) then ascii_of_nat (n + 32) else c.

Fixpoint lower_string (s : string) : string :=
  match s with
  | EmptyString => EmptyString
  | String c s' => String (lower c) (lower_string s')
  end.

Definition same_ci (a b : string) : bool :=
  String.eqb (lower_string a) (lower_string b).

(** ** What one chunk, and a whole batch, leave in the trace *)

Inductive chunk_outcome := Committed | RolledBack.

(** The calls made for one chunk on its own connection [c]: the chunk's
    statements go out as one query inside the transaction, which is then
    committed, or rolled back when the query or the commit failed. *)
Inductive chunk_run (c : nat) (sql : string) : list event -> chunk_outcome -> Prop :=
| chunk_committed :
    chunk_run c sql
      [EGetConnection (Some c); EBeginTransaction c; EQuery c sql true;
       ECommit c true] Committed
| chunk_query_failed :
    chunk_run c sql
      [EGetConnection (Some c); EBeginTransaction c; EQuery c sql false;
       ERollback c true] RolledBack
| chunk_commit_failed :
    chunk_run c sql
      [EGetConnection (Some c); EBeginTransaction c; EQuery c sql true;
       ECommit c false; ERollback c true] RolledBack.

Inductive batch_run : nat -> list (list string) -> list event -> list chunk_outcome -> Prop :=
| batch_done c : batch_run c [] [] []
| batch_chunk c stmts rest evs evs' o os :
    chunk_run c (join (str1 chr_newline) stmts) evs o ->
    batch_run (S c) rest evs' os ->
    batch_run c (stmts :: rest) (evs ++ evs') (o :: os).

(** The same runs told with the driver's answers: after the trace [tr],
    the chunk is committed when the driver accepts its query and its
    commit, and rolled back when it rejects the query, or accepts the query
    and rejects the commit. *)
Inductive chunk_run_on (D : driver) (tr : list event) (c : nat) (sql : string)
  : list event -> chunk_outcome -> Prop :=
| chunk_on_committed data :
    run_query D (tr ++ [EGetConnection (Some c); EBeginTransaction c]) c sql = Some data ->
    run_commit D (tr ++ [EGetConnection (Some c); EBeginTransaction c; EQuery c sql true]) c
    = true ->
    chunk_run_on D tr c sql
      [EGetConnection (Some c); EBeginTransaction c; EQuery c sql true;
       ECommit c true] Committed
| chunk_on_query_failed :
    run_query D (tr ++ [EGetConnection (Some c); EBeginTransaction c]) c sql = None ->
    chunk_run_on D tr c sql
      [EGetConnection (Some c); EBeginTransaction c; EQuery c sql false;
       ERollback c true] RolledBack
| chunk_on_commit_failed data :
    run_query D (tr ++ [EGetConnection (Some c); EBeginTransaction c]) c sql = Some data ->
    run_commit D (tr ++ [EGetConnection (Some c); EBeginTransaction c; EQuery c sql true]) c
    = false ->
    chunk_run_on D tr c sql
      [EGetConnection (Some c); EBeginTransaction c; EQuery c sql true;
       ECommit c false; ERollback c true] RolledBack.

(** The chunks in order, each on the next connection of the pool and
    after all the calls of the chunks before it, whatever their outcomes. *)
Inductive batch_run_on (D : driver)
  : list event -> list (list string) -> list event -> list chunk_outcome -> Prop :=
| batch_on_done tr : batch_run_on D tr [] [] []
| batch_on_chunk tr stmts rest evs evs' o os :
    chunk_run_on D tr (conn_count tr) (join (str1 chr_newline) stmts) evs o ->
    batch_run_on D (tr ++ evs) rest evs' os ->
    batch_run_on D tr (stmts :: rest) (evs ++ evs') (o :: os).

(** The outcomes a trace records: one per transaction that was ended. *)
Definition chunk_outcomes (tr : list event) : list chunk_outcome :=
  omap (fun e => match e with
                 | ECommit _ true => Some Committed
                 | ERollback _ true => Some RolledBack
                 | _ => None
                 end) tr.

(** ** Sample hosts, drivers and rows used to run the definitions *)

Definition sample_host : Host :=
  {| num := Z;
     num_to_string := fun n => if Z.eqb n 0 then "0" else "7";
     time := nat;
     Date_toString := fun _ => "Sun Nov 01 2026 12:34:56 GMT+0000";
     sbDate_toString := fun _ => "Sun Nov 01 2026 12:34:56 GMT+0000";
     sqlDate := fun _ => "2026-11-01";
     sqlDateTime := fun _ => "2026-11-01 12:34:56.000";
     sqlTime := fun _ => "12:34:56.000" |}.

Definition sample_meta : list ColumnMeta :=
  [ {| cm_name := "ID"; cm_type := "LONG"; cm_flags := 16931 |};
    {| cm_name := "Name"; cm_type := "VAR_STRING"; cm_flags := 4097 |} ]%Z.

(** A driver that never fails. *)
Definition reliable_driver : driver :=
  {| acquire := fun _ => true;
     run_query := fun _ _ _ => Some sample_meta;
     run_commit := fun _ _ => true;
     run_rollback := fun _ _ => true;
     run_end := fun _ _ => true |}.

(** A driver that rejects every statement. *)
Definition rejecting_driver : driver :=
  {| acquire := fun _ => true;
     run_query := fun _ _ _ => None;
     run_commit := fun _ _ => true;
     run_rollback := fun _ _ => true;
     run_end := fun _ _ => true |}.

(** A driver that rejects the statements sent on its second connection. *)
Definition second_fails_driver : driver :=
  {| acquire := fun _ => true;
     run_query := fun _ c _ => if c =? 1 then None else Some [];
     run_commit := fun _ _ => true;
     run_rollback := fun _ _ => true;
     run_end := fun _ _ => true |}.


Definition empty_world : world :=
  {| trace := []; tableDefinitions := ∅; host_log := [] |}.

(** The definition last stored through a name of the host, if it was
    not invalidated since: it sits on an object of the host, out of reach
    of [this.tableDefinitions = []]. *)
Fixpoint stored_on_host (ops : list cache_op) (database table : string)
  (acc : option TableDefinition) : option TableDefinition :=
  match ops with
  | [] => acc
  | OpStore d t obj :: rest =>
      stored_on_host rest database table
        (if String.eqb d database && String.eqb t table then Some obj else acc)
  | OpInvalidate d t :: rest =>
      stored_on_host rest database table
        (if String.eqb d database && String.eqb t table then None else acc)
  | _ :: rest => stored_on_host rest database table acc
  end.

(** A sample host: a new array, seen through its [length] and the names
    it inherits from Object.prototype.  The [length] is 0, which is falsy
    and cannot be replaced by an object.  Under each inherited name sits
    a function or an object of the host: of its properties the sample
    knows the ones every object inherits and the definitions stored on
    it.  The sample leaves out the names the array inherits from
    Array.prototype ([push], [map], ...), databases named by array
    indices, which change [length], and the properties the host's
    functions define themselves ([name], [call], ...). *)
Definition sample_objects : @host_objects sample_host :=
  {| resolves := fun _ database => String.eqb database "length" || inherited database;
     host_check := fun ops database table =>
       if String.eqb database "length" then Ok None
       else match stored_on_host ops database table None with
            | Some d => Ok (Some (CDef d))
            | None => Ok (if inherited table then Some (CForeign table) else None)
            end;
     host_ensure := fun _ database =>
       if String.eqb database "length" then Refused RangeError else Kept;
     host_store := fun _ database _ obj =>
       if String.eqb database "length" then Thrown TypeError else Ok (CDef obj);
     host_invalidate := fun _ _ _ => None |}.

(** Rows that are already the pieces of their update statement. *)
Definition sample_toSQL (row : list string) : @result sample_host (list string) :=
  Ok row.

Definition sample_row (n : nat) : list string :=
  ["UPDATE"; "t"; "SET"; "x = 1"; "WHERE"; "ID = 1"].

Definition sample_rows (n : nat) : list (list string) :=
  map sample_row (seq 0 n).

(** The statements [batchUpdate] renders from [sample_rows n]. *)
Definition sample_queries (n : nat) : list string :=
  replicate n "UPDATE t SET x = 1 WHERE ID = 1;".

(** Two tables whose names differ in case only. *)
Definition sample_catalog : list (string * string) :=
  [ ("data", "Extra_News"); ("data", "extra_news"); ("chat_data", "User") ].

(** ** Further notions read off the source *)

Definition is_release (e : event) : bool :=
  match e with EEnd _ _ => true | _ => false end.

(** The number of [connector.end()] calls a trace records. *)
Definition release_count (tr : list event) : nat :=
  length (List.filter is_release tr).

(** The words the capture group of [formatSymbolRegex],
    [(s\+|n\+|b|dt|d|n|p|s|t|\*?like\*?)], can match: its nine literal
    alternatives and the four spellings of the last one. *)
Definition formatSymbolRegex_group : list string :=
  [ "s+"; "n+"; "b"; "dt"; "d"; "n"; "p"; "s"; "t" ]
  ++ flat_map (fun before => map (fun after => before +:+ "like" +:+ after)
                               [EmptyString; "*"])
       [EmptyString; "*"].

(** The two wildcard characters of a LIKE pattern. *)
Definition is_wildcard (c : ascii) : bool :=
  Ascii.eqb c chr_percent || Ascii.eqb c chr_underscore.

Fixpoint string_forallb (f : ascii -> bool) (s : string) : bool :=
  match s with
  | EmptyString => true
  | String c s' => f c && string_forallb f s'
  end.

(** ** The engine's reading of a LIKE pattern

    MariaDB's rules for the pattern of LIKE with the default escape
    character, the backslash: [%] stands for any run of characters, [_]
    for any one character, a backslash makes the character after it
    stand for itself, and a backslash that ends the pattern stands for
    itself. *)
Inductive like_token :=
| LChar (c : ascii)      (* this character *)
| LAny                   (* any run of characters *)
| LOne.                  (* any one character *)

Fixpoint like_tokens (pattern : string) : list like_token :=
  match pattern with
  | EmptyString => []
  | String c rest =>
      if Ascii.eqb c chr_backslash then
        match rest with
        | EmptyString => [LChar chr_backslash]
        | String c' rest' => LChar c' :: like_tokens rest'
        end
      else if Ascii.eqb c chr_percent then LAny :: like_tokens rest
      else if Ascii.eqb c chr_underscore then LOne :: like_tokens rest
      else LChar c :: like_tokens rest
  end.

Definition no_backslash (s : string) : bool :=
  string_forallb (fun c => negb (Ascii.eqb c chr_backslash)) s.

(** ** ExtraNews (singletons/extra-news.js) *)

(** A row of data.Extra_News as the reader returns it, its [Endpoints]
    still JSON text, and the same row once [loadData] has parsed them. *)
Record RawNewsSource := {
  raw_Code : string;
  raw_URL : string;
  raw_Endpoints : string
}.

Record NewsSource := {
  Code : string;
  URL : string;
  Endpoints : list string
}.

(** [this.data]: the object [{}] the constructor and [reloadData] put
    there, or the array [loadData] and [destroy] put there. *)
Inductive news_data := NoData | Sources (rows : list NewsSource).

Record ExtraNews := {
  en_tableExists : option bool;     (* #tableExists, undefined at first *)
  en_data : news_data
}.

(** What the module sees of the database. *)
Record NewsDb := {
  db_same : string -> string -> bool;
  db_catalog : list (string * string);
  db_rows : list RawNewsSource
}.

(** One item of a parsed feed; a field the feed lacks is [undefined]. *)
Record FeedItem := {
  item_title : option string;
  item_content : option string;
  item_link : option string;
  item_url : option string;
  item_pubDate : option string
}.

Record Article `{Host} := {
  title : option string;
  content : option string;
  link : option string;
  published : time
}.

Section ExtraNewsModule.
Context `{Host}.
(** [JSON.parse] on the Endpoints column, which throws on malformed text. *)
Variable JSON_parse : string -> result (list string).
(** [sb.Utils.randArray], [RSS.parseURL] and [new sb.Date(text)]: three
    collaborators the module calls and does not define. *)
Variable randArray : forall A : Type, list A -> option A.
Variable parseURL : string -> result (list FeedItem).
Variable new_sbDate_of : option string -> time.

Definition parse_source (row : RawNewsSource) : result NewsSource :=
  match JSON_parse (raw_Endpoints row) with
  | Ok endpoints =>
      Ok {| Code := raw_Code row; URL := raw_URL row; Endpoints := endpoints |}
  | Thrown e => Thrown e
  end.

(** Modelled from the spec: the row-set reader (recordset.js) is not part
    of the sources at hand; [select("*").from("data", "Extra_News")]
    returns the rows of that table, here [db_rows]. *)
Definition loadData (db : NewsDb) (st : ExtraNews) : result unit * ExtraNews :=
  let tableExists :=
    match en_tableExists st with
    | Some known => known
    | None => isTablePresent (db_same db) (db_catalog db) "data" "Extra_News"
    end in
  if tableExists then
    match map_result parse_source (db_rows db) with
    | Ok rows => (Ok tt, {| en_tableExists := Some tableExists; en_data := Sources rows |})
    | Thrown e => (Thrown e, {| en_tableExists := Some tableExists; en_data := en_data st |})
    end
  else (Ok tt, {| en_tableExists := Some tableExists; en_data := Sources [] |}).

Definition reloadData (db : NewsDb) (st : ExtraNews) : result unit * ExtraNews :=
  loadData db {| en_tableExists := en_tableExists st; en_data := NoData |}.

(** [await new ExtraNews()] *)
Definition new_ExtraNews (db : NewsDb) : result unit * ExtraNews :=
  loadData db {| en_tableExists := None; en_data := NoData |}.

(** The [for ... of] loop of [check]. *)
Fixpoint check_rows (code : string) (rows : list NewsSource) : bool :=
  match rows with
  | [] => false
  | row :: rest => if String.eqb (Code row) code then true else check_rows code rest
  end.

(** [check]; iterating over the plain object [{}] raises a [TypeError].
    [toLowerCase] is taken on ASCII letters. *)
Definition check (code : string) (st : ExtraNews) : result bool :=
  let code := lower_string code in
  match en_data st with
  | NoData => Thrown TypeError
  | Sources rows => Ok (check_rows code rows)
  end.

(** [i.title && i.title.toLowerCase().includes(query)
     || i.content && i.content.toLowerCase().includes(query)], as a
    condition. *)
Definition item_matches (query : string) (i : FeedItem) : bool :=
  match item_title i with
  | Some t => negb (String.eqb t EmptyString) && includes query (lower_string t)
  | None => false
  end
  ||
  match item_content i with
  | Some c => negb (String.eqb c EmptyString) && includes query (lower_string c)
  | None => false
  end.

(** [article.link || article.url] *)
Definition link_or_url (i : FeedItem) : option string :=
  match item_link i with
  | Some l => if String.eqb l EmptyString then item_url i else Some l
  | None => item_url i
  end.

(** [fetch] from the row it found on. *)
Definition fetch_from (row : NewsSource) (query : option string)
  : result (option Article) :=
  let url := URL row +:+ match randArray _ (Endpoints row) with
                         | Some endpoint => endpoint
                         | None => "undefined"
                         end in
  match parseURL url with
  | Thrown e => Thrown e
  | Ok items =>
      let items :=
        match query with
        | Some q =>
            if String.eqb q EmptyString then items
            else List.filter (item_matches (lower_string q)) items
        | None => items
        end in
      match randArray _ items with
      | None => Ok None
      | Some article =>
          Ok (Some {| title := item_title article;
                      content := item_content article;
                      link := link_or_url article;
                      published := new_sbDate_of (item_pubDate article) |})
      end
  end.

(** [fetch(code, query = null)]; [find] is not a function of [{}]. *)
Definition fetch (code : string) (query : option string) (st : ExtraNews)
  : result (option Article) :=
  let code := lower_string code in
  match en_data st with
  | NoData => Thrown TypeError
  | Sources rows =>
      match List.find (fun i => String.eqb (Code i) code) rows with
      | None => Thrown (SbError "Extra news code does not exist!" None)
      | Some row => fetch_from row query
      end
  end.
End ExtraNewsModule.

(** ** Runtime (singletons/runtime.js) *)

(** A JavaScript number that holds a counter: an integer, or NaN. *)
Inductive jsnum := Num (z : Z) | NaN.

(** [x++] on a counter: above 2^53 the sum rounds back to 2^53. *)
Definition js_incr (x : jsnum) : jsnum :=
  match x with
  | Num z => if (z <? 2 ^ 53)%Z then Num (z + 1) else Num z
  | NaN => NaN
  end.

Record Runtime := {
  scriptHotloads : jsnum;
  commandsUsed : jsnum;
  rejectedCommands : jsnum;
  banphraseTimeouts : gmap string jsnum    (* the own properties *)
}.

Definition new_Runtime : Runtime :=
  {| scriptHotloads := Num 0; commandsUsed := Num 0; rejectedCommands := Num 0;
     banphraseTimeouts := ∅ |}.

(** [!table[key]]: an own counter is falsy when it is 0 or NaN, a missing
    key is falsy unless the name is inherited. *)
Definition counter_falsy (table : gmap string jsnum) (key : string) : bool :=
  match table !! key with
  | Some (Num z) => (z =? 0)%Z
  | Some NaN => true
  | None => negb (inherited key)
  end.

(** [table[key] = x] *)
Definition assign (table : gmap string jsnum) (key : string) (x : jsnum)
  : gmap string jsnum :=
  if String.eqb key "__proto__" then table else <[key := x]> table.

(** The number [table[key]] is read as by [++]: what is not an own
    counter, a function or nothing at all, counts as NaN. *)
Definition read_number (table : gmap string jsnum) (key : string) : jsnum :=
  match table !! key with
  | Some x => x
  | None => NaN
  end.

Definition incrementCommandsCounter (r : Runtime) : Runtime :=
  {| scriptHotloads := scriptHotloads r; commandsUsed := js_incr (commandsUsed r);
     rejectedCommands := rejectedCommands r; banphraseTimeouts := banphraseTimeouts r |}.

Definition incrementRejectedCommands (r : Runtime) : Runtime :=
  {| scriptHotloads := scriptHotloads r; commandsUsed := commandsUsed r;
     rejectedCommands := js_incr (rejectedCommands r);
     banphraseTimeouts := banphraseTimeouts r |}.

Definition incrementScriptHotloaded (r : Runtime) : Runtime :=
  {| scriptHotloads := js_incr (scriptHotloads r); commandsUsed := commandsUsed r;
     rejectedCommands := rejectedCommands r; banphraseTimeouts := banphraseTimeouts r |}.

Definition incrementBanphraseTimeouts (channel : string) (r : Runtime) : Runtime :=
  let table := banphraseTimeouts r in
  let table :=
    if counter_falsy table channel then assign table channel (Num 0) else table in
  let table := assign table channel (js_incr (read_number table channel)) in
  {| scriptHotloads := scriptHotloads r; commandsUsed := commandsUsed r;
     rejectedCommands := rejectedCommands r; banphraseTimeouts := table |}.

(** The calls a program makes on the module, and their effect in order. *)
Inductive runtime_call :=
| CommandUsed
| CommandRejected
| BanphraseTimeout (channel : string)
| ScriptHotloaded.

Definition runtime_step (r : Runtime) (c : runtime_call) : Runtime :=
  match c with
  | CommandUsed => incrementCommandsCounter r
  | CommandRejected => incrementRejectedCommands r
  | BanphraseTimeout channel => incrementBanphraseTimeouts channel r
  | ScriptHotloaded => incrementScriptHotloaded r
  end.

Definition runtime_run (calls : list runtime_call) (r : Runtime) : Runtime :=
  fold_left runtime_step calls r.

Definition timeouts_of (channel : string) (calls : list runtime_call) : nat :=
  length (List.filter (fun c => match c with
                                | BanphraseTimeout ch => String.eqb ch channel
                                | _ => false
                                end) calls).

Definition count_call (which : runtime_call -> bool) (calls : list runtime_call) : nat :=
  length (List.filter which calls).

Definition is_CommandUsed (c : runtime_call) : bool :=
  match c with CommandUsed => true | _ => false end.
Definition is_CommandRejected (c : runtime_call) : bool :=
  match c with CommandRejected => true | _ => false end.
Definition is_ScriptHotloaded (c : runtime_call) : bool :=
  match c with ScriptHotloaded => true | _ => false end.

(** ** MarkovChain (classes/markov-chain.js) *)

(** [this.Definition]: never assigned, [null] after a failed parse, or the
    parsed definition. *)
Inductive definition_field (json : Type) :=
| DUndefined
| DNull
| DParsed (j : json).
Arguments DUndefined {json}.
Arguments DNull {json}.
Arguments DParsed {json} j.

Record MarkovChain `{Host} (json model : Type) := {
  mc_ID : value;
  mc_Name : value;
  mc_Definition : definition_field json;
  mc_model : option model;          (* #model, null at first *)
  mc_prepared : option bool         (* #prepared; None is null *)
}.
Arguments mc_ID {_ _ _} _.
Arguments mc_Name {_ _ _} _.
Arguments mc_Definition {_ _ _} _.
Arguments mc_model {_ _ _} _.
Arguments mc_prepared {_ _ _} _.

(** A row of data.Markov_Chain; its Definition column is text or NULL. *)
Record MarkovRow `{Host} := {
  row_ID : value;
  row_Name : value;
  row_Definition : option string
}.

Section MarkovChainClass.
Context `{Host}.
(** The markov-json library and [JSON.parse]: a model is built empty or
    from a definition; each of its methods may change it and may throw.
    The definition a model is built from is an object that the chain
    keeps in [this.Definition] and the model holds as well:
    [definition_of m] is that object as it is when the model is [m],
    if the model still holds one. *)
Variables json model amount text output : Type.
Variable JSON_parse : string -> option (option json).
  (* None: a SyntaxError; Some None: the value null *)
Variable Markov : option json -> model.
Variable definition_of : model -> option json.
Variable one : amount.
Variable model_sentence : model -> amount -> result output * model.
Variable model_words : model -> amount -> result output * model.
Variable model_train : model -> text -> result output * model.

(** [new MarkovChain(data)] *)
Definition new_MarkovChain (data : MarkovRow) : MarkovChain json model :=
  match row_Definition data with
  | Some (String c s) =>
      {| mc_ID := row_ID data; mc_Name := row_Name data;
         mc_Definition :=
           match JSON_parse (String c s) with
           | Some (Some j) => DParsed j
           | Some None => DNull
           | None => DNull
           end;
         mc_model := None; mc_prepared := Some false |}
  | _ =>
      {| mc_ID := row_ID data; mc_Name := row_Name data;
         mc_Definition := DUndefined;
         mc_model := Some (Markov None); mc_prepared := Some true |}
  end.

(** [this.Definition] once the model built from it has become [m]: the
    same object, with what the library did to it. *)
Definition shared (d : definition_field json) (m : model) : definition_field json :=
  match d, definition_of m with
  | DParsed _, Some j => DParsed j
  | _, _ => d
  end.

Definition load (c : MarkovChain json model) : result unit * MarkovChain json model :=
  match mc_Definition c with
  | DNull =>
      (Thrown (SbError ("Markov chain model ID " +:+ to_string (mc_ID c)
                        +:+ " has invalid definition. Cannot proceed") None), c)
  | definition =>
      let m := Markov (match definition with
                       | DParsed j => Some j
                       | _ => None
                       end) in
      (Ok tt,
       {| mc_ID := mc_ID c; mc_Name := mc_Name c;
          mc_Definition := shared (mc_Definition c) m;
          mc_model := Some m;
          mc_prepared := Some true |})
  end.

(** [if (!this.#prepared) { this.load(); }] *)
Definition ensure_loaded (c : MarkovChain json model)
  : result unit * MarkovChain json model :=
  match mc_prepared c with
  | Some true => (Ok tt, c)
  | _ => load c
  end.

(** [return this.#model.method(argument)]; a call on [null] raises a
    [TypeError]. *)
Definition call_model {A} (method : model -> A -> result output * model)
    (argument : A) (c : MarkovChain json model)
  : result output * MarkovChain json model :=
  match ensure_loaded c with
  | (Thrown e, c') => (Thrown e, c')
  | (Ok _, c') =>
      match mc_model c' with
      | None => (Thrown TypeError, c')
      | Some m =>
          let (out, m') := method m argument in
          (out, {| mc_ID := mc_ID c'; mc_Name := mc_Name c';
                   mc_Definition := shared (mc_Definition c') m';
                   mc_model := Some m'; mc_prepared := mc_prepared c' |})
      end
  end.

(** [sentences(amount = 1)], [words(amount = 1)], [train(data)] *)
Definition sentences (a : option amount) (c : MarkovChain json model) :=
  call_model model_sentence (default one a) c.

Definition words (a : option amount) (c : MarkovChain json model) :=
  call_model model_words (default one a) c.

Definition train (data : text) (c : MarkovChain json model) :=
  call_model model_train data c.

(** [destroy()]: [Object.keys(null)] raises a [TypeError]. *)
Definition destroy (c : MarkovChain json model) : result unit * MarkovChain json model :=
  match mc_model c with
  | None => (Thrown TypeError, c)
  | Some _ =>
      (Ok tt,
       {| mc_ID := mc_ID c; mc_Name := mc_Name c; mc_Definition := mc_Definition c;
          mc_model := None; mc_prepared := None |})
  end.
End MarkovChainClass.

(** ** The constructor of Query *)

(** The variables of [process.env] the constructor reads; a variable that
    is not set is [undefined]. *)
Record Env := {
  MARIA_USER : option string;
  MARIA_PASSWORD : option string;
  MARIA_HOST : option string;
  MARIA_SOCKET_PATH : option string;
  MARIA_CONNECTION_LIMIT : option string
}.

(** The options handed to [Maria.createPool]. *)
Record PoolOptions := {
  socketPath : option string;
  host : option string;
  user : option string;
  password : option string;
  connectionLimit : string + Z;
  multipleStatements : bool
}.

(** A variable is truthy when it is set to a text that is not empty. *)
Definition env_truthy (variable : option string) : bool :=
  match variable with
  | Some (String _ _) => true
  | _ => false
  end.

(** [process.env.MARIA_CONNECTION_LIMIT || 300] *)
Definition connection_limit (env : Env) : string + Z :=
  if env_truthy (MARIA_CONNECTION_LIMIT env)
  then inl (default EmptyString (MARIA_CONNECTION_LIMIT env))
  else inr 300%Z.

Definition new_Query `{Host} (env : Env) : result PoolOptions :=
  if negb (env_truthy (MARIA_USER env)) || negb (env_truthy (MARIA_PASSWORD env))
     || (negb (env_truthy (MARIA_HOST env)) && negb (env_truthy (MARIA_SOCKET_PATH env)))
  then Thrown (SbError "Database access must be initialized first" None)
  else if env_truthy (MARIA_SOCKET_PATH env) then
    Ok {| socketPath := Some "/var/run/mysqld/mysqld.sock";
          host := None;
          user := MARIA_USER env;
          password := MARIA_PASSWORD env;
          connectionLimit := connection_limit env;
          multipleStatements := true |}
  else if env_truthy (MARIA_HOST env) then
    Ok {| socketPath := None;
          host := MARIA_HOST env;
          user := MARIA_USER env;
          password := MARIA_PASSWORD env;
          connectionLimit := connection_limit env;
          multipleStatements := true |}
  else
    Thrown (SbError "Not enough info provided in process.env for Query to initialize"
              None).

Definition sample_env : Env :=
  {| MARIA_USER := Some "bot"; MARIA_PASSWORD := Some "secret";
     MARIA_HOST := Some "db.example"; MARIA_SOCKET_PATH := Some "/tmp/other.sock";
     MARIA_CONNECTION_LIMIT := None |}.

(** ** Further samples *)

(** A rendering that fails on a row without pieces. *)
Definition failing_toSQL (row : list string) : @result sample_host (list string) :=
  match row with
  | [] => Thrown TypeError
  | _ => Ok row
  end.

Definition sample_JSON_parse (text : string) : @result sample_host (list string) :=
  if String.eqb text "not json" then Thrown (SbError "Unexpected token" None)
  else Ok [text].

Definition sample_randArray (A : Type) (l : list A) : option A := head l.

Definition sample_items : list FeedItem :=
  [ {| item_title := Some "Weather today"; item_content := Some "Rain."; item_link := None;
       item_url := Some "https://news.example/1"; item_pubDate := None |};
    {| item_title := Some "Election Results"; item_content := None;
       item_link := Some "https://news.example/2"; item_url := None;
       item_pubDate := Some "Sun, 01 Nov 2026 12:34:56 GMT" |} ].

Definition sample_parseURL (url : string) : @result sample_host (list FeedItem) :=
  Ok sample_items.

Definition sample_new_sbDate_of (text : option string) : @time sample_host := 0.

Definition sample_news_db : NewsDb :=
  {| db_same := String.eqb;
     db_catalog := sample_catalog;
     db_rows := [ {| raw_Code := "fi"; raw_URL := "https://news.example/";
                     raw_Endpoints := "rss" |} ] |}.

Definition empty_news_db : NewsDb :=
  {| db_same := String.eqb; db_catalog := []; db_rows := [] |}.

Definition broken_news_db : NewsDb :=
  {| db_same := String.eqb;
     db_catalog := sample_catalog;
     db_rows := [ {| raw_Code := "fi"; raw_URL := "https://news.example/";
                     raw_Endpoints := "not json" |} ] |}.

Definition sample_news : ExtraNews :=
  {| en_tableExists := Some true;
     en_data := Sources [ {| Code := "fi"; URL := "https://news.example/";
                             Endpoints := ["rss"] |} ] |}.

Definition fresh_news : ExtraNews := {| en_tableExists := None; en_data := NoData |}.

Definition sample_calls : list runtime_call :=
  [ CommandUsed; BanphraseTimeout "forsen"; CommandRejected; CommandUsed;
    BanphraseTimeout "forsen"; BanphraseTimeout "constructor"; ScriptHotloaded ].

(** A markov library whose definitions and models are the texts they
    were trained on, and which trains into the object it was given. *)
Definition sample_parse_definition (text : string) : option (option (list string)) :=
  if String.eqb text "{}" then Some (Some [])
  else if String.eqb text "null" then Some None
  else None.

Definition sample_Markov (definition : option (list string)) : list string :=
  default [] definition.

Definition sample_definition_of (m : list string) : option (list string) := Some m.

Definition sample_sentence (m : list string) (n : nat)
  : @result sample_host string * list string :=
  (Ok (join " " m), m).

Definition sample_train (m : list string) (t : string)
  : @result sample_host string * list string :=
  (Ok EmptyString, m ++ [t]).

Definition sample_chain_row : @MarkovRow sample_host :=
  {| row_ID := VNumber (H := sample_host) 7%Z; row_Name := VString "chain"; row_Definition := Some "{}" |}.

Definition broken_chain_row : @MarkovRow sample_host :=
  {| row_ID := VNumber (H := sample_host) 7%Z; row_Name := VString "chain"; row_Definition := Some "{" |}.

Definition null_chain_row : @MarkovRow sample_host :=
  {| row_ID := VNumber (H := sample_host) 7%Z; row_Name := VString "chain";
     row_Definition := Some "null" |}.

(* ================================================================== *)
(** * Part II: properties                                              *)
(* ================================================================== *)

(** ** Strings *)

Example escapeString_OBrien :
  escapeString ("O'Brien" +:+ str2 chr_backslash chr_dquote)
  = "O" +:+ str2 chr_backslash chr_squote +:+ "Brien"
    +:+ str2 chr_backslash chr_backslash +:+ str2 chr_backslash chr_dquote.
Proof. reflexivity. Qed.

Example parse_quoted_OBrien :
  parse_literal (quoted ("O'Brien" +:+ str2 chr_backslash chr_dquote))
  = Some ("O'Brien" +:+ str2 chr_backslash chr_dquote).
Proof. reflexivity. Qed.

Lemma append_cons x a b : String x a +:+ b = String x (a +:+ b).
Proof. reflexivity. Qed.

Lemma append_nil b : EmptyString +:+ b = b.
Proof. reflexivity. Qed.

Lemma append_assoc (a b c : string) : (a +:+ b) +:+ c = a +:+ (b +:+ c).
Proof.
  induction a as [|x a IH]; [reflexivity |].
  rewrite !append_cons. now rewrite IH.
Qed.

Lemma str1_append c s : str1 c +:+ s = String c s.
Proof. reflexivity. Qed.

Lemma str2_append c d s : str2 c d +:+ s = String c (String d s).
Proof. reflexivity. Qed.

Lemma replaceAll_cons c rep x s :
  replaceAll c rep (String x s)
  = if Ascii.eqb x c then rep +:+ replaceAll c rep s
    else String x (replaceAll c rep s).
Proof. reflexivity. Qed.

Lemma replaceAll_app c rep a b :
  replaceAll c rep (a +:+ b) = replaceAll c rep a +:+ replaceAll c rep b.
Proof.
  induction a as [|x a IH]; [reflexivity |].
  rewrite append_cons, !replaceAll_cons.
  destruct (Ascii.eqb x c); rewrite IH;
    [now rewrite append_assoc | now rewrite append_cons].
Qed.

Lemma escapeString_cons c s :
  escapeString (String c s)
  = if is_quote_special c
    then String chr_backslash (String c (escapeString s))
    else String c (escapeString s).
Proof.
  unfold escapeString, is_quote_special.
  rewrite replaceAll_cons.
  destruct (Ascii.eqb_spec c chr_backslash) as [->|Hb]; [reflexivity |].
  rewrite replaceAll_cons.
  destruct (Ascii.eqb_spec c chr_squote) as [->|Hq]; [reflexivity |].
  rewrite replaceAll_cons.
  destruct (Ascii.eqb_spec c chr_dquote) as [->|Hd]; reflexivity.
Qed.

Lemma escapeString_chars s : escapeString s = escape_chars is_quote_special s.
Proof.
  induction s as [|c s IH]; [reflexivity |].
  rewrite escapeString_cons. simpl. now rewrite IH.
Qed.

Lemma escapeLikeString_cons c s :
  escapeLikeString (String c s)
  = if is_like_special c
    then String chr_backslash (String c (escapeLikeString s))
    else String c (escapeLikeString s).
Proof.
  unfold escapeLikeString. rewrite escapeString_cons.
  unfold is_like_special, is_quote_special.
  destruct (Ascii.eqb_spec c chr_backslash) as [->|Hb]; [reflexivity |].
  destruct (Ascii.eqb_spec c chr_squote) as [->|Hq]; [reflexivity |].
  destruct (Ascii.eqb_spec c chr_dquote) as [->|Hd]; [reflexivity |].
  cbn [orb]. rewrite replaceAll_cons.
  destruct (Ascii.eqb_spec c chr_percent) as [->|Hp]; [reflexivity |].
  rewrite replaceAll_cons.
  destruct (Ascii.eqb_spec c chr_underscore) as [->|Hu]; reflexivity.
Qed.

Lemma escapeLikeString_chars s : escapeLikeString s = escape_chars is_like_special s.
Proof.
  induction s as [|c s IH]; [reflexivity |].
  rewrite escapeLikeString_cons. simpl. now rewrite IH.
Qed.

Lemma literal_body_escapeString s :
  literal_body (escapeString s +:+ str1 chr_squote) = Some s.
Proof.
  induction s as [|c s IH]; [reflexivity |].
  rewrite escapeString_cons. unfold is_quote_special.
  destruct (Ascii.eqb_spec c chr_backslash) as [->|Hb].
  { cbn [orb]. rewrite !append_cons. cbn [literal_body].
    rewrite IH. reflexivity. }
  destruct (Ascii.eqb_spec c chr_squote) as [->|Hq].
  { cbn [orb]. rewrite !append_cons. cbn [literal_body].
    rewrite IH. reflexivity. }
  destruct (Ascii.eqb_spec c chr_dquote) as [->|Hd].
  { cbn [orb]. rewrite !append_cons. cbn [literal_body].
    rewrite IH. reflexivity. }
  cbn [orb]. rewrite append_cons.
  cbn [literal_body].
  destruct (Ascii.eqb_spec c chr_squote) as [?|_]; [contradiction |].
  destruct (Ascii.eqb_spec c chr_backslash) as [?|_]; [contradiction |].
  rewrite IH. reflexivity.
Qed.

Lemma parse_literal_quoted s : parse_literal (quoted s) = Some s.
Proof. unfold quoted. rewrite str1_append. apply literal_body_escapeString. Qed.


Lemma starts_with_spec p : forall s,
  starts_with p s = true <-> exists post, s = p +:+ post.
Proof.
  induction p as [|a p IH]; intros s.
  - split; [intros _; now exists s | reflexivity].
  - destruct s as [|b s]; cbn [starts_with].
    + split; [discriminate | intros [post E]; discriminate].
    + rewrite andb_true_iff, IH. split.
      * intros [Hab [post ->]]. apply Ascii.eqb_eq in Hab as ->. now exists post.
      * intros [post E]. rewrite append_cons in E. injection E as -> ->.
        split; [apply Ascii.eqb_refl | now exists post].
Qed.

(** [includes] is the substring test. *)
Lemma includes_spec needle : forall hay,
  includes needle hay = true <-> exists pre post, hay = pre +:+ needle +:+ post.
Proof.
  induction hay as [|c hay IH].
  - cbn [includes]. rewrite orb_false_r, starts_with_spec. split.
    + intros [post E]. now exists EmptyString, post.
    + intros (pre & post & E). destruct pre as [|x pre]; [| discriminate].
      now exists post.
  - cbn [includes]. rewrite orb_true_iff, starts_with_spec, IH. split.
    + intros [[post E] | (pre & post & E)].
      * now exists EmptyString, post.
      * exists (String c pre), post. now rewrite E.
    + intros (pre & post & E). destruct pre as [|x pre].
      * left. now exists post.
      * right. rewrite append_cons in E. injection E as -> ->. now exists pre, post.
Qed.

(** ** Worlds and traces *)

Lemma extend_extend w a b : extend (extend w a) b = extend w (a ++ b).
Proof. unfold extend. simpl. now rewrite app_assoc. Qed.

Lemma extend_nil w : extend w [] = w.
Proof. destruct w. unfold extend. simpl. now rewrite app_nil_r. Qed.

Lemma log_extend e w : log e w = extend w [e].
Proof. reflexivity. Qed.

Lemma conn_count_app tr evs : conn_count (tr ++ evs) = conn_count tr + conn_count evs.
Proof. unfold conn_count. now rewrite List.filter_app, length_app. Qed.

Lemma updateBatchLimit_pos : 0 < updateBatchLimit.
Proof. unfold updateBatchLimit. lia. Qed.


(** ** The monad *)

Section MonadLaws.
Context `{Host}.

Lemma bind_returns {A B} (m : M A) (k : A -> M B) w a w' :
  m w = (Returns a, w') -> bind m k w = k a w'.
Proof. intros E. unfold bind. now rewrite E. Qed.

Lemma bind_throws {A B} (m : M A) (k : A -> M B) w e w' :
  m w = (Throws e, w') -> bind m k w = (Throws e, w').
Proof. intros E. unfold bind. now rewrite E. Qed.

Lemma try_catch_returns {A} (body handler : M A) w a w' :
  body w = (Returns a, w') -> try_catch body handler w = (Returns a, w').
Proof. intros E. unfold try_catch. now rewrite E. Qed.

Lemma try_catch_throws {A} (body handler : M A) w e w' :
  body w = (Throws e, w') -> try_catch body handler w = handler w'.
Proof. intros E. unfold try_catch. now rewrite E. Qed.
End MonadLaws.

(** ** One iteration of the batch loop *)

Section Primitives.
Context `{Host}.
Variable D : driver.

Lemma getTransaction_acquired w :
  acquire D (trace w) = true ->
  getTransaction D w
  = (Returns (conn_count (trace w)),
     extend w [EGetConnection (Some (conn_count (trace w)));
               EBeginTransaction (conn_count (trace w))]).
Proof.
  intros Ha. unfold getTransaction.
  erewrite bind_returns; [| unfold pool_getConnection; rewrite Ha; reflexivity].
  unfold bind, connector_beginTransaction, modify, ret.
  now rewrite !log_extend, extend_extend.
Qed.

Lemma connector_query_settled c sql w :
  connector_query D c sql w
  = (Returns (run_query D (trace w) c sql),
     extend w [EQuery c sql (settled (run_query D (trace w) c sql))]).
Proof. reflexivity. Qed.

(** What the [try]/[catch] of one iteration does on connection [c], when
    the rollback it may need goes through. *)
Lemma chunk_attempt c sql w :
  (forall tr, run_rollback D tr c = true) ->
  exists tail o,
    try_catch
      (let* p := connector_query D c sql in
       let* _ := await p in
       connector_commit D c)
      (connector_rollback D c) w
    = (Returns tt, extend w tail)
    /\ chunk_run c sql
         ([EGetConnection (Some c); EBeginTransaction c] ++ tail) o.
Proof.
  intros Hrb.
  destruct (run_query D (trace w) c sql) as [m|] eqn:Hq.
  - destruct (run_commit D (trace (extend w [EQuery c sql true])) c) eqn:Hc.
    + exists [EQuery c sql true; ECommit c true], Committed. split; [| constructor].
      apply try_catch_returns.
      erewrite bind_returns;
        [| rewrite connector_query_settled, Hq; cbn [settled]; reflexivity].
      unfold await. erewrite bind_returns; [| reflexivity].
      unfold connector_commit. rewrite Hc.
      now rewrite log_extend, extend_extend.
    + exists [EQuery c sql true; ECommit c false; ERollback c true], RolledBack.
      split; [| constructor].
      erewrite try_catch_throws.
      2:{ erewrite bind_returns;
            [| rewrite connector_query_settled, Hq; cbn [settled]; reflexivity].
          unfold await. erewrite bind_returns; [| reflexivity].
          unfold connector_commit. rewrite Hc. reflexivity. }
      unfold connector_rollback. rewrite Hrb.
      now rewrite !log_extend, !extend_extend.
  - exists [EQuery c sql false; ERollback c true], RolledBack.
    split; [| constructor].
    erewrite try_catch_throws.
    2:{ erewrite bind_returns;
          [| rewrite connector_query_settled, Hq; cbn [settled]; reflexivity].
        unfold await. erewrite bind_throws; reflexivity. }
    unfold connector_rollback. rewrite Hrb.
    now rewrite !log_extend, !extend_extend.
Qed.
(** The same with the answers of the driver that decide the outcome. *)
Lemma chunk_attempt_on c sql w :
  (forall tr, run_rollback D tr c = true) ->
  exists tail o,
    try_catch
      (let* p := connector_query D c sql in
       let* _ := await p in
       connector_commit D c)
      (connector_rollback D c)
      (extend w [EGetConnection (Some c); EBeginTransaction c])
    = (Returns tt, extend w ([EGetConnection (Some c); EBeginTransaction c] ++ tail))
    /\ chunk_run_on D (trace w) c sql
         ([EGetConnection (Some c); EBeginTransaction c] ++ tail) o.
Proof.
  intros Hrb.
  set (w' := extend w [EGetConnection (Some c); EBeginTransaction c]).
  assert (Etr : forall l,
             trace (extend w' l)
             = trace w ++ [EGetConnection (Some c); EBeginTransaction c] ++ l)
    by (intros l; unfold w', extend; cbn [trace]; now rewrite <- app_assoc).
  destruct (run_query D (trace w') c sql) as [m|] eqn:Hq.
  - destruct (run_commit D (trace (extend w' [EQuery c sql true])) c) eqn:Hc.
    + exists [EQuery c sql true; ECommit c true], Committed. split.
      * rewrite <- extend_extend. fold w'. apply try_catch_returns.
        erewrite bind_returns;
          [| rewrite connector_query_settled, Hq; cbn [settled]; reflexivity].
        unfold await. erewrite bind_returns; [| reflexivity].
        unfold connector_commit. rewrite Hc.
        now rewrite log_extend, extend_extend.
      * rewrite Etr in Hc. now apply (chunk_on_committed D (trace w) c sql m).
    + exists [EQuery c sql true; ECommit c false; ERollback c true], RolledBack.
      split.
      * rewrite <- extend_extend. fold w'. erewrite try_catch_throws.
        2:{ erewrite bind_returns;
              [| rewrite connector_query_settled, Hq; cbn [settled]; reflexivity].
            unfold await. erewrite bind_returns; [| reflexivity].
            unfold connector_commit. rewrite Hc. reflexivity. }
        unfold connector_rollback. rewrite Hrb.
        now rewrite !log_extend, !extend_extend.
      * rewrite Etr in Hc. now apply (chunk_on_commit_failed D (trace w) c sql m).
  - exists [EQuery c sql false; ERollback c true], RolledBack. split.
    + rewrite <- extend_extend. fold w'. erewrite try_catch_throws.
      2:{ erewrite bind_returns;
            [| rewrite connector_query_settled, Hq; cbn [settled]; reflexivity].
          unfold await. erewrite bind_throws; reflexivity. }
      unfold connector_rollback. rewrite Hrb.
      now rewrite !log_extend, !extend_extend.
    + now apply chunk_on_query_failed.
Qed.
End Primitives.

Section BatchLoop.
Context `{Host}.
Variable D : driver.
Hypothesis acquire_ok : forall tr, acquire D tr = true.
Hypothesis rollback_ok : forall tr c, run_rollback D tr c = true.

Lemma chunk_run_conn_count c sql evs o :
  chunk_run c sql evs o -> conn_count evs = 1.
Proof. now destruct 1. Qed.

Lemma batch_loop_run fuel : forall queries i w,
  0 < fuel ->
  length queries + updateBatchLimit < i + updateBatchLimit * fuel ->
  exists evs os,
    batch_loop D fuel queries i w = (Returns tt, extend w evs)
    /\ batch_run (conn_count (trace w)) (batch_slices fuel queries i) evs os.
Proof.
  pose proof updateBatchLimit_pos as Hpos.
  induction fuel as [|fuel IH]; intros queries i w Hfuel0 Hfuel; [lia |].
  cbn [batch_loop batch_slices].
  destruct (Nat.leb_spec i (length queries)) as [Hle|Hgt].
  2:{ exists [], []. split; [now rewrite extend_nil | constructor]. }
  set (c := conn_count (trace w)).
  set (sql := join (str1 chr_newline) (slice queries i (i + updateBatchLimit))).
  erewrite bind_returns; [| apply getTransaction_acquired, acquire_ok].
  fold c.
  destruct (chunk_attempt D c sql (extend w [EGetConnection (Some c); EBeginTransaction c]))
    as (tail & o & Hbody & Hchunk); [auto |].
  erewrite bind_returns; [| exact Hbody].
  rewrite extend_extend.
  match goal with |- context [batch_loop D fuel queries ?j ?w'] =>
    destruct (IH queries j w') as (evs & os & Hrun & Hbr);
      [destruct fuel; lia | lia |] end.
  rewrite Hrun, extend_extend.
  eexists _, (o :: os). split; [reflexivity |].
  apply batch_chunk; [exact Hchunk |].
  replace (S c) with
    (conn_count (trace (extend w ([EGetConnection (Some c); EBeginTransaction c] ++ tail)))).
  - exact Hbr.
  - unfold extend. cbn [trace]. rewrite conn_count_app.
    rewrite (chunk_run_conn_count _ _ _ _ Hchunk). subst c. lia.
Qed.
Lemma chunk_run_on_forget tr c sql evs o :
  chunk_run_on D tr c sql evs o -> chunk_run c sql evs o.
Proof. destruct 1; constructor. Qed.

Lemma batch_loop_run_on fuel : forall queries i w,
  0 < fuel ->
  length queries + updateBatchLimit < i + updateBatchLimit * fuel ->
  exists evs os,
    batch_loop D fuel queries i w = (Returns tt, extend w evs)
    /\ batch_run_on D (trace w) (batch_slices fuel queries i) evs os.
Proof.
  pose proof updateBatchLimit_pos as Hpos.
  induction fuel as [|fuel IH]; intros queries i w Hfuel0 Hfuel; [lia |].
  cbn [batch_loop batch_slices].
  destruct (Nat.leb_spec i (length queries)) as [Hle|Hgt].
  2:{ exists [], []. split; [now rewrite extend_nil | constructor]. }
  set (c := conn_count (trace w)).
  set (sql := join (str1 chr_newline) (slice queries i (i + updateBatchLimit))).
  erewrite bind_returns; [| apply getTransaction_acquired, acquire_ok].
  fold c.
  destruct (chunk_attempt_on D c sql w) as (tail & o & Hbody & Hchunk); [auto |].
  erewrite bind_returns; [| exact Hbody].
  match goal with |- context [batch_loop D fuel queries ?j ?w'] =>
    destruct (IH queries j w') as (evs & os & Hrun & Hbr);
      [destruct fuel; lia | lia |] end.
  rewrite Hrun, extend_extend.
  eexists _, (o :: os). split; [reflexivity |].
  apply batch_on_chunk; [exact Hchunk | exact Hbr].
Qed.

Lemma batch_run_on_forget tr slices evs os :
  batch_run_on D tr slices evs os -> batch_run (conn_count tr) slices evs os.
Proof.
  induction 1 as [|tr stmts rest evs evs' o os Hc _ IH]; [constructor |].
  apply chunk_run_on_forget in Hc.
  apply batch_chunk; [exact Hc |].
  rewrite conn_count_app, (chunk_run_conn_count _ _ _ _ Hc) in IH.
  now replace (S (conn_count tr)) with (conn_count tr + 1) by lia.
Qed.
End BatchLoop.

(** ** The chunks of a batch *)

Lemma chunk_outcomes_app a b : chunk_outcomes (a ++ b) = chunk_outcomes a ++ chunk_outcomes b.
Proof. unfold chunk_outcomes. apply omap_app. Qed.

Lemma queried_app a b : queried (a ++ b) = queried a ++ queried b.
Proof. unfold queried. apply omap_app. Qed.

Lemma chunk_run_outcome c sql evs o :
  chunk_run c sql evs o -> chunk_outcomes evs = [o] /\ queried evs = [sql].
Proof. now destruct 1. Qed.

Lemma batch_run_outcomes c slices evs os :
  batch_run c slices evs os ->
  chunk_outcomes evs = os
  /\ queried evs = map (join (str1 chr_newline)) slices
  /\ length os = length slices.
Proof.
  induction 1 as [|c stmts rest evs evs' o os Hc _ (IH1 & IH2 & IH3)]; [done |].
  destruct (chunk_run_outcome _ _ _ _ Hc) as [E1 E2].
  rewrite chunk_outcomes_app, queried_app, E1, E2, IH1, IH2. cbn. now rewrite IH3.
Qed.


Lemma slices_concat fuel : forall qs i,
  0 < fuel ->
  length qs + updateBatchLimit < i + updateBatchLimit * fuel ->
  i <= length qs ->
  concat (batch_slices fuel qs i) = drop i qs.
Proof.
  pose proof updateBatchLimit_pos as Hpos.
  induction fuel as [|fuel IH]; intros qs i H0 Hf Hi; [lia |].
  cbn [batch_slices]. destruct (Nat.leb_spec i (length qs)) as [_|?]; [| lia].
  cbn [concat]. unfold slice.
  replace (i + updateBatchLimit - i) with updateBatchLimit by lia.
  destruct (Nat.le_gt_cases (i + updateBatchLimit) (length qs)) as [Hle|Hgt].
  - rewrite IH by (try lia; destruct fuel; lia).
    rewrite <- drop_drop. apply take_drop.
  - destruct fuel as [|fuel']; [lia |]. cbn [batch_slices].
    destruct (Nat.leb_spec (i + updateBatchLimit) (length qs)) as [?|_]; [lia |].
    cbn [concat]. rewrite app_nil_r. apply take_ge. rewrite length_drop. lia.
Qed.


Lemma slices_count fuel : forall qs i,
  0 < fuel ->
  length qs + updateBatchLimit < i + updateBatchLimit * fuel ->
  i <= length qs ->
  length (batch_slices fuel qs i) = (length qs - i) / updateBatchLimit + 1.
Proof.
  pose proof updateBatchLimit_pos as Hpos.
  induction fuel as [|fuel IH]; intros qs i H0 Hf Hi; [lia |].
  cbn [batch_slices]. destruct (Nat.leb_spec i (length qs)) as [_|?]; [| lia].
  cbn [length].
  destruct (Nat.le_gt_cases (i + updateBatchLimit) (length qs)) as [Hle|Hgt].
  - rewrite IH by (try lia; destruct fuel; lia).
    replace (length qs - i) with ((length qs - (i + updateBatchLimit)) + 1 * updateBatchLimit) by lia.
    rewrite Nat.div_add by lia. lia.
  - destruct fuel as [|fuel']; [lia |]. cbn [batch_slices].
    destruct (Nat.leb_spec (i + updateBatchLimit) (length qs)) as [?|_]; [lia |].
    rewrite Nat.div_small by lia. reflexivity.
Qed.

Lemma chunks_fuel (qs : list string) :
  0 < length qs + 2
  /\ length qs + updateBatchLimit < 0 + updateBatchLimit * (length qs + 2).
Proof. unfold updateBatchLimit. lia. Qed.

(** Every statement lands in exactly one chunk, in order. *)
Lemma chunks_concat qs : concat (chunks qs) = qs.
Proof.
  destruct (chunks_fuel qs). unfold chunks.
  rewrite slices_concat by (auto; lia). apply drop_0.
Qed.


(** The loop runs once more than there are full chunks. *)
Lemma chunks_count qs : length (chunks qs) = length qs / updateBatchLimit + 1.
Proof.
  destruct (chunks_fuel qs). unfold chunks.
  rewrite slices_count by (auto; lia). now rewrite Nat.sub_0_r.
Qed.

Lemma chunks_exact_multiple qs k :
  length qs = k * updateBatchLimit -> length (chunks qs) = k + 1.
Proof.
  intros E. rewrite chunks_count, E, Nat.div_mul; [reflexivity |].
  pose proof updateBatchLimit_pos. lia.
Qed.

Section Batch.
Context `{Host}.
Variable D : driver.

Lemma batchUpdate_run {Row} (data : list Row) toSQL queries w :
  (forall tr, acquire D tr = true) ->
  (forall tr c, run_rollback D tr c = true) ->
  map_result (render_row toSQL) data = Ok queries ->
  exists evs os,
    batchUpdate D data toSQL w = (Returns tt, extend w evs)
    /\ batch_run (conn_count (trace w)) (chunks queries) evs os.
Proof.
  intros Ha Hr Hq. unfold batchUpdate. rewrite Hq. cbn [lift_result].
  erewrite bind_returns; [| reflexivity].
  destruct (chunks_fuel queries).
  apply batch_loop_run; auto.
Qed.
Lemma batchUpdate_run_on {Row} (data : list Row) toSQL queries w :
  (forall tr, acquire D tr = true) ->
  (forall tr c, run_rollback D tr c = true) ->
  map_result (render_row toSQL) data = Ok queries ->
  exists evs os,
    batchUpdate D data toSQL w = (Returns tt, extend w evs)
    /\ batch_run_on D (trace w) (chunks queries) evs os.
Proof.
  intros Ha Hr Hq. unfold batchUpdate. rewrite Hq. cbn [lift_result].
  erewrite bind_returns; [| reflexivity].
  destruct (chunks_fuel queries).
  apply batch_loop_run_on; auto.
Qed.
End Batch.


(** ** raw and the schema cache *)

Section Raw.
Context `{Host}.
Variable D : driver.

Lemma raw_acquired args w :
  acquire D (trace w) = true ->
  let c := conn_count (trace w) in
  let sql := join (str1 chr_newline) args in
  let p := run_query D (trace (extend w [EGetConnection (Some c)])) c sql in
  let released :=
    run_end D (trace (extend w [EGetConnection (Some c); EQuery c sql (settled p)])) c in
  raw D args w
  = (if released
     then match p with Some data => Returns data | None => Throws DriverError end
     else Throws DriverError,
     extend w [EGetConnection (Some c); EQuery c sql (settled p); EEnd c released]).
Proof.
  intros Ha c sql p released. unfold raw. fold sql.
  erewrite bind_returns; [| unfold pool_getConnection; rewrite Ha; reflexivity].
  fold c. erewrite bind_returns; [| apply connector_query_settled].
  rewrite log_extend, extend_extend. cbn [app]. fold p.
  unfold bind, connector_end. fold released.
  destruct released; rewrite log_extend, extend_extend; cbn [app];
    [| reflexivity].
  destruct p; reflexivity.
Qed.

Lemma raw_not_acquired args w :
  acquire D (trace w) = false ->
  raw D args w = (Throws DriverError, extend w [EGetConnection None]).
Proof.
  intros Ha. unfold raw.
  erewrite bind_throws; [reflexivity |].
  unfold pool_getConnection. now rewrite Ha.
Qed.

Lemma raw_keeps_cache args w :
  tableDefinitions (snd (raw D args w)) = tableDefinitions w.
Proof.
  destruct (acquire D (trace w)) eqn:Ha.
  - now rewrite raw_acquired.
  - now rewrite raw_not_acquired.
Qed.

Lemma raw_returns_query args w data w' :
  raw D args w = (Returns data, w') ->
  queried (trace w') = queried (trace w) ++ [join (str1 chr_newline) args]
  /\ tableDefinitions w' = tableDefinitions w.
Proof.
  destruct (acquire D (trace w)) eqn:Ha.
  - rewrite raw_acquired by exact Ha. intros [= _ <-].
    unfold extend. cbn [trace tableDefinitions]. now rewrite queried_app.
  - rewrite raw_not_acquired by exact Ha. discriminate.
Qed.
Lemma raw_extends args w :
  exists evs, snd (raw D args w) = extend w evs.
Proof.
  destruct (acquire D (trace w)) eqn:Ha.
  - rewrite raw_acquired by exact Ha. cbn [snd]. eauto.
  - rewrite raw_not_acquired by exact Ha. cbn [snd]. eauto.
Qed.

End Raw.

Section Cache.
Context `{Host}.
Variable O : host_objects.
Variable D : driver.

Lemma inherited_not_member d table :
  inherited table = true -> definition_member d table = None.
Proof.
  unfold inherited, object_prototype_names. cbn [existsb]. intros Hi.
  repeat (apply orb_prop in Hi as [Hi | Hi];
          [apply String.eqb_eq in Hi; subst; reflexivity |]).
  discriminate.
Qed.

Lemma container_get_set c table d :
  container_get (container_set c table (SDef d)) table = Some (CDef d).
Proof.
  unfold container_set, container_get.
  destruct (props c !! table) as [s|] eqn:Hp; cbn [props proto].
  - now rewrite lookup_insert_eq.
  - destruct (proto c); try (cbn [props proto]; now rewrite lookup_insert_eq);
      destruct (String.eqb table "__proto__") eqn:Ht; cbn [props proto];
      rewrite ?lookup_insert_eq, ?Hp, ?Ht; reflexivity.
Qed.

Lemma container_get_unset c table :
  container_get (container_set c table SNull) table = None.
Proof.
  unfold container_set, container_get.
  destruct (props c !! table) as [s|] eqn:Hp; cbn [props proto].
  - now rewrite lookup_insert_eq.
  - destruct (proto c); try (cbn [props proto]; now rewrite lookup_insert_eq);
      destruct (String.eqb table "__proto__") eqn:Ht; cbn [props proto];
      rewrite ?lookup_insert_eq, ?Hp; reflexivity.
Qed.

Lemma container_set_other c table s table' :
  table' <> table ->
  props (container_set c table s) !! table' = props c !! table'.
Proof.
  intros Hne. unfold container_set.
  destruct (props c !! table), (proto c), (String.eqb table "__proto__");
    cbn [props]; rewrite ?lookup_insert_ne by congruence; reflexivity.
Qed.

Lemma getDefinition_hit database table w v :
  cached O w database table = Ok (Some v) ->
  getDefinition O D database table w = (Returns v, w).
Proof. intros E. unfold getDefinition. now rewrite E. Qed.

Lemma getDefinition_miss database table w :
  cached O w database table = Ok None ->
  getDefinition O D database table w
  = match ensure_database O database w with
    | (Returns _, w0) =>
        match raw D [introspection_sql database table] w0 with
        | (Returns data, w') =>
            store_definition O database table (built database table data) w'
        | (Throws e, w') => (Throws e, w')
        | (FuelExhausted, w') => (FuelExhausted, w')
        end
    | (Throws e, w0) => (Throws e, w0)
    | (FuelExhausted, w0) => (FuelExhausted, w0)
    end.
Proof.
  intros E. unfold getDefinition. rewrite E.
  unfold bind at 1.
  destruct (ensure_database O database w) as [[[]| e |] w0]; reflexivity.
Qed.

(** The object under a database name once [getDefinition] has passed its
    third statement. *)
Lemma ensure_database_unresolved database w :
  (tableDefinitions w !! database = None -> resolves O (host_log w) database = false) ->
  exists w0,
    ensure_database O database w = (Returns tt, w0)
    /\ trace w0 = trace w
    /\ tableDefinitions w0
       = <[database := default empty_container (tableDefinitions w !! database)]>
           (tableDefinitions w).
Proof.
  intros Hr. unfold ensure_database.
  destruct (tableDefinitions w !! database) as [c|] eqn:Hc.
  - exists w. cbn [default]. now rewrite insert_id.
  - rewrite Hr by reflexivity. eexists. split; [reflexivity |]. now split.
Qed.

Lemma getDefinition_unresolved database table w :
  (tableDefinitions w !! database = None -> resolves O (host_log w) database = false) ->
  cached O w database table = Ok None ->
  exists w0,
    trace w0 = trace w
    /\ getDefinition O D database table w
       = match raw D [introspection_sql database table] w0 with
         | (Returns data, w') =>
             (Returns (CDef (built database table data)),
              set_cache
                (<[database :=
                     container_set (default empty_container (tableDefinitions w !! database))
                       table (SDef (built database table data))]> (tableDefinitions w))
                w')
         | (Throws e, w') =>
             (Throws e,
              set_cache
                (<[database := default empty_container (tableDefinitions w !! database)]>
                   (tableDefinitions w))
                w')
         | (FuelExhausted, w') => (FuelExhausted, w')
         end.
Proof.
  intros Hr Hmiss.
  destruct (ensure_database_unresolved database w Hr) as (w0 & He & Htr & Hdefs).
  exists w0. split; [exact Htr |].
  rewrite getDefinition_miss by exact Hmiss. rewrite He.
  destruct (raw_extends D [introspection_sql database table] w0) as [evs Hevs].
  destruct (raw D [introspection_sql database table] w0) as [[data| e |] w'];
    cbn [snd] in Hevs; subst w'; [| | reflexivity].
  - unfold store_definition. cbn [extend tableDefinitions].
    rewrite Hdefs, lookup_insert_eq.
    unfold set_cache. cbn [trace host_log]. now rewrite insert_insert_eq.
  - unfold set_cache, extend. cbn [trace host_log tableDefinitions]. now rewrite Hdefs.
Qed.

Lemma getDefinition_miss_returns database table w v w' :
  (tableDefinitions w !! database = None -> resolves O (host_log w) database = false) ->
  cached O w database table = Ok None ->
  getDefinition O D database table w = (Returns v, w') ->
  queried (trace w') = queried (trace w) ++ [introspection_sql database table]
  /\ (exists data, v = CDef (built database table data))
  /\ cached O w' database table = Ok (Some v)
  /\ exists c, tableDefinitions w' !! database = Some c.
Proof.
  intros Hr Hmiss.
  destruct (getDefinition_unresolved database table w Hr Hmiss) as (w0 & Htr & ->).
  destruct (raw D [introspection_sql database table] w0) as [[data| e |] w1] eqn:Hraw;
    try discriminate.
  intros [= <- <-].
  apply raw_returns_query in Hraw as [Hq _].
  split; [cbn [set_cache trace]; now rewrite Hq, Htr |].
  split; [eauto |].
  unfold cached, set_cache. cbn [tableDefinitions].
  rewrite lookup_insert_eq, container_get_set. eauto.
Qed.

Lemma getDefinition_miss_query database table w :
  (tableDefinitions w !! database = None -> resolves O (host_log w) database = false) ->
  cached O w database table = Ok None ->
  acquire D (trace w) = true ->
  queried (trace (snd (getDefinition O D database table w)))
  = queried (trace w) ++ [introspection_sql database table].
Proof.
  intros Hr Hmiss Ha.
  destruct (getDefinition_unresolved database table w Hr Hmiss) as (w0 & Htr & ->).
  rewrite raw_acquired by (now rewrite Htr). cbv zeta.
  match goal with |- context [if ?b then _ else _] => destruct b end;
    [match goal with |- context [match ?p with Some _ => _ | None => _ end] =>
       destruct p end |];
    cbn [snd set_cache extend trace]; rewrite Htr; now rewrite queried_app.
Qed.

(** Whatever the names, [getDefinition] sends nothing but its one
    statement, and at most once. *)
Lemma getDefinition_sends database table w :
  queried (trace (snd (getDefinition O D database table w))) = queried (trace w)
  \/ queried (trace (snd (getDefinition O D database table w)))
     = queried (trace w) ++ [introspection_sql database table].
Proof.
  destruct (cached O w database table) as [[v|]| e] eqn:E.
  - left. now rewrite (getDefinition_hit database table w v E).
  - rewrite getDefinition_miss by exact E.
    assert (He : exists r w0, ensure_database O database w = (r, w0)
                              /\ trace w0 = trace w).
    { unfold ensure_database.
      destruct (tableDefinitions w !! database); [eauto |].
      destruct (resolves O (host_log w) database); [| eauto].
      destruct (host_ensure O (host_log w) database); eauto. }
    destruct He as (r & w0 & -> & Htr).
    destruct r as [[]| e |];
      [| left; cbn [snd]; now rewrite Htr | left; cbn [snd]; now rewrite Htr].
    assert (Hs : forall obj w1,
               trace (snd (store_definition O database table obj w1)) = trace w1).
    { intros obj w1. unfold store_definition.
      destruct (tableDefinitions w1 !! database); [reflexivity |].
      destruct (resolves O (host_log w1) database); [| reflexivity].
      destruct (host_store O (host_log w1) database table obj); reflexivity. }
    destruct (acquire D (trace w0)) eqn:Ha.
    + right. rewrite raw_acquired by exact Ha. cbv zeta.
      match goal with |- context [if ?b then _ else _] => destruct b end;
        [match goal with |- context [match ?p with Some _ => _ | None => _ end] =>
           destruct p end |];
        rewrite ?Hs; cbn [snd extend trace]; rewrite Htr; now rewrite queried_app.
    + left. rewrite raw_not_acquired by exact Ha.
      cbn [snd extend trace]. rewrite Htr. rewrite queried_app. cbn.
      now rewrite app_nil_r.
  - left. unfold getDefinition. now rewrite E.
Qed.

Lemma invalidateDefinition_own database table w c v :
  tableDefinitions w !! database = Some c ->
  container_get c table = Some v ->
  invalidateDefinition O database table w
  = (Returns tt,
     set_cache (<[database := container_set c table SNull]> (tableDefinitions w)) w).
Proof.
  intros Hc Hv. unfold invalidateDefinition, cached. now rewrite Hc, Hv.
Qed.
End Cache.

(** ** The batch loop comes to an end *)

Section Totality.
Context `{Host}.
Variable D : driver.

Lemma getTransaction_settles w :
  fst (getTransaction D w) <> FuelExhausted.
Proof.
  unfold getTransaction, bind, pool_getConnection.
  destruct (acquire D (trace w)); discriminate.
Qed.

Lemma attempt_settles c sql w :
  fst (try_catch
         (let* p := connector_query D c sql in
          let* _ := await p in
          connector_commit D c)
         (connector_rollback D c) w) <> FuelExhausted.
Proof.
  unfold try_catch, bind, connector_query, await, connector_commit,
    connector_rollback, ret, throw.
  destruct (run_query D (trace w) c sql); cbn [settled].
  - match goal with |- context [run_commit D ?t c] => destruct (run_commit D t c) end;
      [discriminate |].
    match goal with |- context [run_rollback D ?t c] => destruct (run_rollback D t c) end;
      discriminate.
  - match goal with |- context [run_rollback D ?t c] => destruct (run_rollback D t c) end;
      discriminate.
Qed.

(** With the fuel [batchUpdate] gives it, the loop always comes to an end,
    whatever the driver answers. *)
Lemma batch_loop_settles fuel : forall queries i w,
  0 < fuel ->
  length queries + updateBatchLimit < i + updateBatchLimit * fuel ->
  fst (batch_loop D fuel queries i w) <> FuelExhausted.
Proof.
  pose proof updateBatchLimit_pos as Hpos.
  induction fuel as [|fuel IH]; intros queries i w H0 Hf; [lia |].
  cbn [batch_loop].
  destruct (Nat.leb_spec i (length queries)) as [Hle|Hgt]; [| discriminate].
  pose proof (getTransaction_settles w) as Ht.
  unfold bind at 1.
  destruct (getTransaction D w) as [[c | e |] w1]; [| discriminate | now elim Ht].
  pose proof (attempt_settles c
    (join (str1 chr_newline) (slice queries i (i + updateBatchLimit))) w1) as Hb.
  unfold bind at 1.
  match goal with |- context [try_catch ?b ?h w1] =>
    destruct (try_catch b h w1) as [[u | e |] w2] end;
    [| discriminate | now elim Hb].
  apply IH; [destruct fuel; lia | lia].
Qed.

Lemma batchUpdate_settles {Row} (data : list Row) toSQL w :
  fst (batchUpdate D data toSQL w) <> FuelExhausted.
Proof.
  unfold batchUpdate.
  destruct (map_result (render_row toSQL) data) as [queries | e]; cbn [lift_result].
  - unfold bind, ret. destruct (chunks_fuel queries).
    apply batch_loop_settles; auto.
  - discriminate.
Qed.
End Totality.


(** ** Claims about isTablePresent *)

Lemma isTablePresent_matching same catalog database table :
  isTablePresent same catalog database table
  = negb (matching_rows same catalog database table =? 0).
Proof.
  unfold isTablePresent, information_schema_tables, matching_rows.
  now rewrite length_map.
Qed.

(** C5, as the code has it: [isTablePresent] answers true exactly when at
    least one row of the information schema matches the two names, and
    false when none does. *)
Theorem isTablePresent_iff_some_row same catalog database table :
  isTablePresent same catalog database table = true
  <-> exists row, In row catalog
                  /\ same (fst row) database = true
                  /\ same (snd row) table = true.
Proof.
  rewrite isTablePresent_matching. unfold matching_rows.
  rewrite negb_true_iff, Nat.eqb_neq. split.
  - intros Hn.
    destruct (List.filter _ catalog) as [|row rest] eqn:E; [now elim Hn |].
    assert (Hin : In row (List.filter
      (fun r => same (fst r) database && same (snd r) table) catalog))
      by (rewrite E; now left).
    apply List.filter_In in Hin as [Hin Hm]. apply andb_true_iff in Hm.
    now exists row.
  - intros (row & Hin & H1 & H2) E.
    assert (Hf : In row (List.filter
      (fun r => same (fst r) database && same (snd r) table) catalog))
      by (apply List.filter_In; split; [exact Hin | now rewrite H1, H2]).
    destruct (List.filter _ catalog); [exact Hf | discriminate].
Qed.

(** C5, as stated, fails: two tables whose names differ in case only both
    match under a case-insensitive collation; the answer is true although
    the rows that match are two, not one. *)
Lemma isTablePresent_two_matching_rows :
  ~ (isTablePresent same_ci sample_catalog "data" "Extra_News" = true
     <-> matching_rows same_ci sample_catalog "data" "Extra_News" = 1).
Proof.
  intros [Hone _]. specialize (Hone eq_refl). vm_compute in Hone. discriminate.
Qed.

(** Where at most one row can match, one row and some row are the same. *)
Lemma isTablePresent_unique same catalog database table :
  matching_rows same catalog database table <= 1 ->
  (isTablePresent same catalog database table = true
   <-> matching_rows same catalog database table = 1).
Proof.
  intros Hle. rewrite isTablePresent_matching, negb_true_iff, Nat.eqb_neq. lia.
Qed.

Example isTablePresent_near_miss :
  isTablePresent String.eqb sample_catalog "data" "Extra_New" = false.
Proof. reflexivity. Qed.

(** ** Claims about parseFormatSymbol and convertToSQL *)

Section FormatSymbols.
Context `{Host}.

Lemma normalize_date_mismatch v :
  has_kind KDate v = false -> normalize_date v = v.
Proof. now destruct v. Qed.

Lemma map_result_strings (l : list string) :
  map_result escapeString_value (map VString l) = Ok (map escapeString l).
Proof.
  induction l as [|s l IH]; [reflexivity |].
  cbn [map map_result escapeString_value]. now rewrite IH.
Qed.

Lemma map_result_not_string (items : list value) :
  (exists i, In i items /\ typeof i <> TString) ->
  map_result escapeString_value items = Thrown TypeError.
Proof.
  induction items as [|x items IH]; intros (i & Hin & Hty); [destruct Hin |].
  cbn [map_result].
  destruct x; cbn [escapeString_value]; try reflexivity.
  destruct Hin as [<- | Hin]; [now elim Hty |].
  rewrite IH by eauto. reflexivity.
Qed.




Lemma convertToSQL_null targetType :
  convertToSQL VNull targetType = Ok (VString "NULL").
Proof. reflexivity. Qed.

(** ** The temporal renderings *)

Lemma format_symbol_d_agrees t :
  as_value (parseFormatSymbol "d" (VSbDate t)) = convertToSQL (VSbDate t) "DATE"
  /\ as_value (parseFormatSymbol "d" (VDate t)) = convertToSQL (VDate t) "DATE".
Proof. split; reflexivity. Qed.

Lemma format_symbol_dt_agrees t :
  as_value (parseFormatSymbol "dt" (VSbDate t)) = convertToSQL (VSbDate t) "DATETIME"
  /\ as_value (parseFormatSymbol "dt" (VDate t)) = convertToSQL (VDate t) "DATETIME".
Proof. split; reflexivity. Qed.

Lemma string_length_append (a b : string) :
  String.length (a +:+ b) = String.length a + String.length b.
Proof.
  induction a as [|x a IH]; [reflexivity |].
  rewrite append_cons. cbn [String.length]. now rewrite IH.
Qed.

Lemma quoted_longer (s : string) :
  s <> str1 chr_squote +:+ s +:+ str1 chr_squote.
Proof.
  intros E. apply (f_equal String.length) in E.
  rewrite str1_append in E. cbn [String.length] in E.
  rewrite string_length_append in E. cbn in E. lia.
Qed.

(** C8, at the time token: [parseFormatSymbol] returns the bare
    [sqlTime()] text where [convertToSQL], and the date and datetime tokens
    next to it, wrap the text in quotes; the two renderings differ for
    every point in time. *)
Theorem format_symbol_t_is_not_quoted (t : time) :
  parseFormatSymbol "t" (VSbDate t) = Ok (sqlTime t)
  /\ convertToSQL (VSbDate t) "TIME"
     = Ok (VString (str1 chr_squote +:+ sqlTime t +:+ str1 chr_squote))
  /\ as_value (parseFormatSymbol "t" (VSbDate t)) <> convertToSQL (VSbDate t) "TIME".
Proof.
  split; [reflexivity |]. split; [reflexivity |].
  cbn. intros [= E]. exact (quoted_longer _ E).
Qed.
End FormatSymbols.

Example format_symbol_t_sample :
  parseFormatSymbol (H := sample_host) "t" (VSbDate (H := sample_host) 0) = Ok "12:34:56.000"
  /\ convertToSQL (H := sample_host) (VSbDate (H := sample_host) 0) "TIME" = Ok (VString "'12:34:56.000'").
Proof. split; reflexivity. Qed.



Example string_list_renders :
  parseFormatSymbol (H := sample_host) "s+" (VArray [VString "a"; VString "b"])
  = Ok "('a','b')"
  /\ parseFormatSymbol (H := sample_host) "s+" (VArray []) = Ok "()".
Proof. split; reflexivity. Qed.

Example convertToSQL_boolean :
  convertToSQL (H := sample_host) (VBoolean true) "TINY" = Ok (VString "1")
  /\ convertToSQL (H := sample_host) (VBoolean false) "TINY" = Ok (VString "0")
  /\ convertToSQL (H := sample_host) (VString "x") "TINY"
     = Thrown (SbError "Expected value type: boolean" (Some (VString "x"))).
Proof. repeat split. Qed.

(** ** Claims about escaping *)

(** C7: [escapeString] puts one backslash before every backslash, quote
    and double quote and leaves every other character as it is;
    [escapeLikeString] does the same and also for percent and underscore;
    and the engine reads the quoted literal of a string back as that very
    string. *)
Theorem escaping_round_trip (s : string) :
  escapeString s = escape_chars is_quote_special s
  /\ escapeLikeString s = escape_chars is_like_special s
  /\ parse_literal (quoted s) = Some s.
Proof.
  split; [apply escapeString_chars |].
  split; [apply escapeLikeString_chars | apply parse_literal_quoted].
Qed.


(** ** Claims about batchUpdate *)

(** C1, as the code has it: when the statements render, the pool hands
    out connections and rollbacks go through, [batchUpdate] resolves to
    [undefined] whatever happened to the chunks.  Every statement is in
    one chunk; chunk after chunk, the chunk's statements go out as one
    query in a transaction on a connection of its own, which is committed
    when the driver accepts the query and the commit, and rolled back
    when it rejects one of them; what each chunk came to is left in the
    driver's trace only, one commit or rollback per chunk. *)
Theorem batchUpdate_resolves_to_undefined `{Host} (D : driver) {Row}
    (data : list Row) toSQL queries w :
  (forall tr, acquire D tr = true) ->
  (forall tr c, run_rollback D tr c = true) ->
  map_result (render_row toSQL) data = Ok queries ->
  exists evs,
    batchUpdate D data toSQL w = (Returns tt, extend w evs)
    /\ batch_run_on D (trace w) (chunks queries) evs (chunk_outcomes evs)
    /\ concat (chunks queries) = queries
    /\ length (chunk_outcomes evs) = length (chunks queries).
Proof.
  intros Ha Hr Hq.
  destruct (batchUpdate_run_on D data toSQL queries w Ha Hr Hq) as (evs & os & E & Hrun).
  exists evs. split; [exact E |].
  destruct (batch_run_outcomes _ _ _ _ (batch_run_on_forget D _ _ _ _ Hrun))
    as (Hos & _ & Hlen).
  rewrite Hos. split; [exact Hrun |]. split; [apply chunks_concat | exact Hlen].
Qed.

Lemma batchUpdate_resolves_to_undefined_witness :
  exists evs,
    batchUpdate (H := sample_host) rejecting_driver (sample_rows 2) sample_toSQL empty_world
    = (Returns tt, extend empty_world evs)
    /\ batch_run_on rejecting_driver (trace empty_world) (chunks (sample_queries 2)) evs
         (chunk_outcomes evs)
    /\ concat (chunks (sample_queries 2)) = sample_queries 2
    /\ length (chunk_outcomes evs) = length (chunks (sample_queries 2)).
Proof.
  apply (batchUpdate_resolves_to_undefined (H := sample_host) rejecting_driver
           (sample_rows 2) sample_toSQL (sample_queries 2) empty_world).
  - intros tr. reflexivity.
  - intros tr c. reflexivity.
  - reflexivity.
Defined.

(** C1, as stated, fails: no reading of the value [batchUpdate] resolves to
    tells a committed chunk from a rolled-back one, since a driver that
    accepts the statement and one that rejects it lead to the same value. *)
Lemma batchUpdate_result_hides_outcomes :
  ~ exists report : completion (H := sample_host) unit -> list chunk_outcome,
      forall D : driver,
        report (fst (batchUpdate D (sample_rows 1) sample_toSQL empty_world))
        = chunk_outcomes
            (trace (snd (batchUpdate D (sample_rows 1) sample_toSQL empty_world))).
Proof.
  intros [report Hreport].
  pose proof (Hreport reliable_driver) as H1.
  pose proof (Hreport rejecting_driver) as H2.
  vm_compute in H1, H2. congruence.
Qed.

(** C2, at a batch of exactly 1000 statements: the loop test [i <= length]
    lets a second iteration run on the empty slice, so a second transaction
    is opened for an empty statement and rolled back or committed on its
    own. *)
Theorem batchUpdate_1000_rows_extra_chunk :
  let w := snd (batchUpdate (H := sample_host) reliable_driver
                  (sample_rows 1000) sample_toSQL empty_world) in
  map_result (H := sample_host) (render_row sample_toSQL) (sample_rows 1000)
  = Ok (sample_queries 1000)
  /\ map length (chunks (sample_queries 1000)) = [1000; 0]
  /\ conn_count (trace w) = 2
  /\ last (queried (trace w)) = Some EmptyString.
Proof. vm_compute. repeat split. Qed.

Example chunks_2500 : map length (chunks (sample_queries 2500)) = [1000; 1000; 500].
Proof. vm_compute. reflexivity. Qed.

Example chunks_empty : chunks [] = [[]].
Proof. reflexivity. Qed.




Example batchUpdate_second_of_three_fails :
  chunk_outcomes
    (trace (snd (batchUpdate (H := sample_host) second_fails_driver
                   (sample_rows 2500) sample_toSQL empty_world)))
  = [Committed; RolledBack; Committed].
Proof. vm_compute. reflexivity. Qed.

(** ** Claims about raw *)

(** C4: once [raw] holds a connection, the calls it makes on it are the
    query and then [end], whether the statement succeeded or failed; a
    failed statement only surfaces from the promise after the release. *)
Theorem raw_releases_connection `{Host} (D : driver) args w :
  acquire D (trace w) = true ->
  exists executed released,
    snd (raw D args w)
    = extend w [EGetConnection (Some (conn_count (trace w)));
                EQuery (conn_count (trace w)) (join (str1 chr_newline) args) executed;
                EEnd (conn_count (trace w)) released]
    /\ (executed = false -> fst (raw D args w) = Throws DriverError)
    /\ (executed = true -> released = true -> exists data, fst (raw D args w) = Returns data).
Proof.
  intros Ha. rewrite (raw_acquired D args w Ha). cbv zeta.
  eexists _, _. split; [reflexivity |]. cbn [fst]. split.
  - destruct (run_query D _ _ _); [discriminate |].
    intros _. now destruct (run_end D _ _).
  - destruct (run_query D _ _ _) as [data|]; [| discriminate].
    intros _ ->. now exists data.
Qed.

Lemma raw_releases_connection_witness :
  exists executed released,
    snd (raw (H := sample_host) rejecting_driver ["SELECT 1"; "FROM DUAL"] empty_world)
    = extend empty_world
        [EGetConnection (Some 0);
         EQuery 0 (join (str1 chr_newline) ["SELECT 1"; "FROM DUAL"]) executed;
         EEnd 0 released]
    /\ (executed = false ->
        fst (raw (H := sample_host) rejecting_driver ["SELECT 1"; "FROM DUAL"] empty_world)
        = Throws DriverError)
    /\ (executed = true -> released = true ->
        exists data,
          fst (raw (H := sample_host) rejecting_driver ["SELECT 1"; "FROM DUAL"] empty_world)
          = Returns data).
Proof.
  apply (raw_releases_connection (H := sample_host) rejecting_driver
           ["SELECT 1"; "FROM DUAL"] empty_world).
  reflexivity.
Defined.

Example raw_failed_statement_trace :
  raw (H := sample_host) rejecting_driver ["SELECT 1"] empty_world
  = (Throws DriverError,
     extend empty_world [EGetConnection (Some 0); EQuery 0 "SELECT 1" false; EEnd 0 true]).
Proof. reflexivity. Qed.


(** ** Claims about the schema cache and escapeIdentifier *)

Section CacheClaims.
Context `{Host}.
Variable O : host_objects.
Variable D : driver.

Lemma fresh_container_inherited table d table' :
  inherited table' = true ->
  table' <> table ->
  container_get (container_set empty_container table (SDef d)) table'
  = Some (CForeign table').
Proof.
  intros Hi Hne. unfold container_set, empty_container. cbn [props proto].
  rewrite lookup_empty.
  destruct (String.eqb table "__proto__") eqn:Ht.
  - apply String.eqb_eq in Ht. subst table.
    unfold container_get. cbn [props proto]. rewrite lookup_empty.
    apply String.eqb_neq in Hne. rewrite Hne.
    now rewrite inherited_not_member, Hi.
  - unfold container_get. cbn [props proto].
    rewrite lookup_insert_ne by congruence. now rewrite lookup_empty, Hi.
Qed.

(** C9: once a definition was looked up in a database, [getDefinition]
    of that database and a table named as a property that every object
    inherits ([constructor], [toString], ...) sends no introspection
    query, neither on the first call nor on a later one, and returns the
    inherited value of the host, which is no table definition: the world,
    trace included, is as it was. *)
Theorem getDefinition_inherited_table_no_query database table table' w v w1 :
  resolves O (host_log w) database = false ->
  tableDefinitions w !! database = None ->
  getDefinition O D database table w = (Returns v, w1) ->
  inherited table' = true ->
  table' <> table ->
  getDefinition O D database table' w1 = (Returns (CForeign table'), w1).
Proof.
  intros Hr Hnone Hfirst Hi Hne.
  assert (Hmiss : cached O w database table = Ok None)
    by (unfold cached; now rewrite Hnone, Hr).
  destruct (getDefinition_unresolved O D database table w (fun _ => Hr) Hmiss)
    as (w0 & _ & E).
  rewrite E in Hfirst. clear E.
  destruct (raw D [introspection_sql database table] w0) as [[data| e |] w']; 
    try discriminate.
  injection Hfirst as <- <-.
  apply getDefinition_hit. unfold cached, set_cache. cbn [tableDefinitions].
  rewrite lookup_insert_eq, Hnone. cbn [default].
  now rewrite fresh_container_inherited.
Qed.

(** A driver that answers makes [getDefinition] return. *)
Lemma getDefinition_returns database table w :
  (tableDefinitions w !! database = None -> resolves O (host_log w) database = false) ->
  acquire D (trace w) = true ->
  (forall tr c sql, run_query D tr c sql <> None) ->
  (forall tr c, run_end D tr c = true) ->
  exists v w', getDefinition O D database table w = (Returns v, w').
Proof.
  intros Hr Ha Hq He.
  assert (Hok : exists o, cached O w database table = Ok o).
  { unfold cached. destruct (tableDefinitions w !! database); [eauto |].
    rewrite Hr by reflexivity. eauto. }
  destruct Hok as [[v|] E].
  - exists v, w. now apply getDefinition_hit.
  - destruct (getDefinition_unresolved O D database table w Hr E) as (w0 & Htr & ->).
    rewrite raw_acquired by (now rewrite Htr). cbv zeta. rewrite He.
    match goal with |- context [match ?p with Some _ => _ | None => _ end] =>
      destruct p as [data|] eqn:Hp end; [eauto | now apply Hq in Hp].
Qed.

(** C10: a name that does not contain "chatrooms" comes out of
    [escapeIdentifier] as it went in, one that does is wrapped in
    backticks and otherwise unchanged; so whatever [getDefinition] sends
    for two such names is the statement built from the names as they are,
    and it does send that statement when no definition is found, the
    database name is not one the array resolves by itself, and the pool
    hands out a connection. *)
Theorem escapeIdentifier_leaves_names_verbatim database table w :
  includes "chatrooms" database = false ->
  includes "chatrooms" table = false ->
  escapeIdentifier database = database
  /\ escapeIdentifier table = table
  /\ (forall s, includes "chatrooms" s = true ->
                escapeIdentifier s = String chr_backtick (s +:+ str1 chr_backtick))
  /\ (queried (trace (snd (getDefinition O D database table w))) = queried (trace w)
      \/ queried (trace (snd (getDefinition O D database table w)))
         = queried (trace w)
           ++ ["SELECT * FROM " +:+ (database +:+ "." +:+ table) +:+ " WHERE 1 = 0"])
  /\ ((tableDefinitions w !! database = None -> resolves O (host_log w) database = false) ->
      cached O w database table = Ok None ->
      acquire D (trace w) = true ->
      queried (trace (snd (getDefinition O D database table w)))
      = queried (trace w)
        ++ ["SELECT * FROM " +:+ (database +:+ "." +:+ table) +:+ " WHERE 1 = 0"]).
Proof.
  intros Hd Ht.
  assert (Ed : escapeIdentifier database = database)
    by (unfold escapeIdentifier; now rewrite Hd).
  assert (Et : escapeIdentifier table = table)
    by (unfold escapeIdentifier; now rewrite Ht).
  assert (Esql : introspection_sql database table
                 = "SELECT * FROM " +:+ (database +:+ "." +:+ table) +:+ " WHERE 1 = 0")
    by (unfold introspection_sql; now rewrite Ed, Et).
  split; [exact Ed |]. split; [exact Et |]. split; [| split].
  - intros s Hs. unfold escapeIdentifier. now rewrite Hs.
  - rewrite <- Esql. apply getDefinition_sends.
  - intros Hr Hmiss Ha. rewrite <- Esql. now apply getDefinition_miss_query.
Qed.
End CacheClaims.

Lemma getDefinition_inherited_table_no_query_witness :
  let w1 :=
    snd (getDefinition sample_objects reliable_driver "data" "Users" empty_world) in
  getDefinition sample_objects reliable_driver "data" "constructor" w1
  = (Returns (CForeign "constructor"), w1).
Proof.
  apply (getDefinition_inherited_table_no_query sample_objects reliable_driver
           "data" "Users" "constructor" empty_world
           (CDef (built "data" "Users" sample_meta))).
  - reflexivity.
  - reflexivity.
  - reflexivity.
  - reflexivity.
  - discriminate.
Defined.

(** The same on the first call for a pair: no query is ever sent for
    ("data", "constructor"), and what comes back is the function every
    object inherits. *)
Example getDefinition_constructor_trace :
  let w1 :=
    snd (getDefinition sample_objects reliable_driver "data" "Users" empty_world) in
  let r := getDefinition sample_objects reliable_driver "data" "constructor" w1 in
  let r' := getDefinition sample_objects reliable_driver "data" "constructor" (snd r) in
  fst r = Returns (CForeign "constructor")
  /\ fst r' = Returns (CForeign "constructor")
  /\ queried (trace (snd r')) = ["SELECT * FROM data.Users WHERE 1 = 0"].
Proof. vm_compute. repeat split. Qed.

(** For the database name [length] the third statement of [getDefinition]
    assigns an object to the length of the array: the call throws before
    anything is sent. *)
Example getDefinition_length_throws :
  getDefinition sample_objects reliable_driver "length" "Users" empty_world
  = (Throws RangeError, log_host (OpEnsure "length") empty_world)
  /\ trace (log_host (OpEnsure "length") empty_world) = [].
Proof. vm_compute. repeat split. Qed.

Example getDefinition_three_calls :
  let w1 := snd (getDefinition sample_objects reliable_driver "data" "Users" empty_world) in
  let w2 := snd (getDefinition sample_objects reliable_driver "data" "Users" w1) in
  let w3 := snd (invalidateDefinition sample_objects "data" "Users" w2) in
  let w4 := snd (getDefinition sample_objects reliable_driver "data" "Users" w3) in
  queried (trace w1) = ["SELECT * FROM data.Users WHERE 1 = 0"]
  /\ queried (trace w2) = ["SELECT * FROM data.Users WHERE 1 = 0"]
  /\ queried (trace w4)
     = ["SELECT * FROM data.Users WHERE 1 = 0"; "SELECT * FROM data.Users WHERE 1 = 0"]
  /\ cached sample_objects w4 "data" "Users"
     = Ok (Some (CDef (built "data" "Users" sample_meta))).
Proof. vm_compute. repeat split. Qed.

Example decode_sample_meta :
  map decode_column sample_meta
  = [ {| name := "ID"; type := "LONG"; notNull := true; primaryKey := true;
         unsigned := true |};
      {| name := "Name"; type := "VAR_STRING"; notNull := true; primaryKey := false;
         unsigned := false |} ].
Proof. reflexivity. Qed.

Lemma escapeIdentifier_leaves_names_verbatim_witness :
  escapeIdentifier "data" = "data"
  /\ escapeIdentifier "Users` WHERE 1 = 1; DROP TABLE `x" = "Users` WHERE 1 = 1; DROP TABLE `x"
  /\ (forall s, includes "chatrooms" s = true ->
                escapeIdentifier s = String chr_backtick (s +:+ str1 chr_backtick))
  /\ (queried (trace (snd (getDefinition sample_objects reliable_driver "data"
                             "Users` WHERE 1 = 1; DROP TABLE `x" empty_world)))
      = queried (trace empty_world)
      \/ queried (trace (snd (getDefinition sample_objects reliable_driver "data"
                                "Users` WHERE 1 = 1; DROP TABLE `x" empty_world)))
         = queried (trace empty_world)
           ++ ["SELECT * FROM "
               +:+ ("data" +:+ "." +:+ "Users` WHERE 1 = 1; DROP TABLE `x")
               +:+ " WHERE 1 = 0"])
  /\ queried (trace (snd (getDefinition sample_objects reliable_driver "data"
                            "Users` WHERE 1 = 1; DROP TABLE `x" empty_world)))
     = queried (trace empty_world)
       ++ ["SELECT * FROM "
           +:+ ("data" +:+ "." +:+ "Users` WHERE 1 = 1; DROP TABLE `x")
           +:+ " WHERE 1 = 0"].
Proof.
  destruct (escapeIdentifier_leaves_names_verbatim sample_objects reliable_driver
              "data" "Users` WHERE 1 = 1; DROP TABLE `x" empty_world)
    as (E1 & E2 & E3 & E4 & E5); [reflexivity | reflexivity |].
  split; [exact E1 |]. split; [exact E2 |]. split; [exact E3 |]. split; [exact E4 |].
  apply E5; reflexivity.
Defined.

Example escapeIdentifier_chatrooms :
  escapeIdentifier "chat_data.chatrooms" = "`chat_data.chatrooms`".
Proof. reflexivity. Qed.

(* ================================================================== *)
(** * Part III: further properties of the code                         *)
(* ================================================================== *)

(** ** Further properties of the escaping functions *)

Lemma escape_chars_length f s :
  String.length s <= String.length (escape_chars f s).
Proof.
  induction s as [|c s IH]; cbn [escape_chars String.length]; [lia |].
  destruct (f c); cbn [String.length]; lia.
Qed.

(** X1: [escapeString] returns its argument unchanged exactly when the
    argument holds no backslash, no quote and no double quote. *)
Theorem escapeString_fixed_iff (s : string) :
  escapeString s = s <-> string_forallb (fun c => negb (is_quote_special c)) s = true.
Proof.
  rewrite escapeString_chars.
  induction s as [|c s IH]; [easy |].
  cbn [escape_chars string_forallb].
  destruct (is_quote_special c) eqn:E; cbn [negb andb].
  - split; [| discriminate].
    intros [= Ec Es]. exfalso.
    pose proof (escape_chars_length is_quote_special s) as Hlen.
    apply (f_equal String.length) in Es. cbn [String.length] in Es. lia.
  - rewrite <- IH. split; [intros [= ->]; reflexivity | intros ->; reflexivity].
Qed.

Lemma literal_body_like s :
  literal_body (escapeLikeString s +:+ String chr_percent (str1 chr_squote))
  = Some (escape_chars is_wildcard s +:+ str1 chr_percent).
Proof.
  induction s as [|c s IH]; [reflexivity |].
  rewrite escapeLikeString_cons. unfold is_like_special, is_quote_special.
  cbn [escape_chars]. unfold is_wildcard.
  destruct (Ascii.eqb_spec c chr_backslash) as [->|Hb].
  { cbn [orb]. rewrite !append_cons. cbn [literal_body]. rewrite IH. reflexivity. }
  destruct (Ascii.eqb_spec c chr_squote) as [->|Hq].
  { cbn [orb]. rewrite !append_cons. cbn [literal_body]. rewrite IH. reflexivity. }
  destruct (Ascii.eqb_spec c chr_dquote) as [->|Hd].
  { cbn [orb]. rewrite !append_cons. cbn [literal_body]. rewrite IH. reflexivity. }
  destruct (Ascii.eqb_spec c chr_percent) as [->|Hp].
  { cbn [orb]. rewrite !append_cons. cbn [literal_body]. rewrite IH. reflexivity. }
  destruct (Ascii.eqb_spec c chr_underscore) as [->|Hu].
  { cbn [orb]. rewrite !append_cons. cbn [literal_body]. rewrite IH. reflexivity. }
  cbn [orb]. rewrite !append_cons. cbn [literal_body].
  destruct (Ascii.eqb_spec c chr_squote) as [?|_]; [contradiction |].
  destruct (Ascii.eqb_spec c chr_backslash) as [?|_]; [contradiction |].
  rewrite IH. reflexivity.
Qed.

Section MoreFormatSymbols.
Context `{Host}.

Lemma like_tokens_escaped s :
  no_backslash s = true ->
  like_tokens (escape_chars is_wildcard s +:+ str1 chr_percent)
  = map LChar (list_ascii_of_string s) ++ [LAny].
Proof.
  unfold no_backslash.
  induction s as [|c s IH]; [reflexivity |].
  cbn [string_forallb]. intros [Hc Hs]%andb_prop.
  apply negb_true_iff in Hc.
  cbn [escape_chars list_ascii_of_string map app].
  destruct (is_wildcard c) eqn:Hw.
  - rewrite !append_cons. cbn [like_tokens].
    change (Ascii.eqb chr_backslash chr_backslash) with true. cbv iota.
    now rewrite IH.
  - rewrite append_cons. cbn [like_tokens]. rewrite Hc.
    unfold is_wildcard in Hw. apply orb_false_iff in Hw as [Hp Hu].
    rewrite Hp, Hu. now rewrite IH.
Qed.

(** X2: the text the contains-pattern token renders is [ LIKE ] followed by
    one quoted literal, which the engine reads as the pattern percent, the
    parameter with a backslash before each of its percent and underscore
    characters, percent: the quotes of the parameter cannot end the
    literal, and a backslash of the parameter reaches the pattern as a
    single backslash.  For a parameter without a backslash the pattern
    stands for any run of characters, the characters of the parameter as
    they are, any run of characters. *)
Theorem like_token_pattern (s : string) :
  exists literal pattern,
    parseFormatSymbol "*like*" (VString s) = Ok (" LIKE " +:+ literal)
    /\ parse_literal literal = Some pattern
    /\ pattern = str1 chr_percent +:+ escape_chars is_wildcard s +:+ str1 chr_percent
    /\ (no_backslash s = true ->
        like_tokens pattern = LAny :: map LChar (list_ascii_of_string s) ++ [LAny]).
Proof.
  exists (String chr_squote (String chr_percent
            (escapeLikeString s +:+ String chr_percent (str1 chr_squote)))).
  eexists. split; [reflexivity |]. split; [| split; [reflexivity |]].
  - cbn [parse_literal]. change (Ascii.eqb chr_squote chr_squote) with true. cbv iota.
    cbn [literal_body].
    change (Ascii.eqb chr_percent chr_squote) with false.
    change (Ascii.eqb chr_percent chr_backslash) with false. cbv iota.
    rewrite literal_body_like. reflexivity.
  - intros Hs. rewrite str1_append. cbn [like_tokens].
    change (Ascii.eqb chr_percent chr_backslash) with false.
    change (Ascii.eqb chr_percent chr_percent) with true. cbv iota.
    now rewrite like_tokens_escaped.
Qed.
End MoreFormatSymbols.

Lemma like_token_pattern_witness :
  exists literal pattern,
    parseFormatSymbol (H := sample_host) "*like*" (VString "50%_off")
    = Ok (" LIKE " +:+ literal)
    /\ parse_literal literal = Some pattern
    /\ like_tokens pattern = LAny :: map LChar (list_ascii_of_string "50%_off") ++ [LAny].
Proof.
  destruct (like_token_pattern (H := sample_host) "50%_off")
    as (literal & pattern & E1 & E2 & _ & E4).
  exists literal, pattern. split; [exact E1 |]. split; [exact E2 |].
  apply E4. reflexivity.
Defined.

(** A backslash of the parameter is not doubled for the pattern: before a
    percent sign it takes the backslash the code puts there, and the
    percent sign of the parameter is a wildcard again; as the last
    character it escapes the percent sign that closes the pattern. *)
Example like_token_backslash :
  (exists literal pattern,
     parseFormatSymbol (H := sample_host) "*like*" (VString (String chr_backslash "%"))
     = Ok (" LIKE " +:+ literal)
     /\ parse_literal literal = Some pattern
     /\ like_tokens pattern = [LAny; LChar chr_backslash; LAny; LAny])
  /\ (exists literal pattern,
        parseFormatSymbol (H := sample_host) "*like*" (VString (str1 chr_backslash))
        = Ok (" LIKE " +:+ literal)
        /\ parse_literal literal = Some pattern
        /\ like_tokens pattern = [LAny; LChar chr_percent]).
Proof.
  split.
  - exists (String chr_squote (String chr_percent
              (escapeLikeString (String chr_backslash "%")
               +:+ String chr_percent (str1 chr_squote)))).
    eexists. split; [reflexivity |]. split; vm_compute; reflexivity.
  - exists (String chr_squote (String chr_percent
              (escapeLikeString (str1 chr_backslash)
               +:+ String chr_percent (str1 chr_squote)))).
    eexists. split; [reflexivity |]. split; vm_compute; reflexivity.
Qed.

Section MoreConverter.
Context `{Host}.

(** X3: whenever [convertToSQL] renders a string, for whatever target type,
    the result is a quoted literal that the engine reads back as that
    string; a string is never passed on as it came. *)
Theorem convertToSQL_string_is_literal (s targetType : string) (v : value) :
  convertToSQL (VString s) targetType = Ok v ->
  v = VString (quoted s) /\ parse_literal (to_string v) = Some s.
Proof.
  unfold convertToSQL. cbn [isArray andb].
  destruct (String.eqb targetType "TINY"); [discriminate |].
  rewrite andb_false_r.
  destruct (is_temporal targetType); cbn [instanceof_Date]; [discriminate |].
  intros [= <-]. split; [reflexivity |].
  cbn [to_string]. apply parse_literal_quoted.
Qed.

(** X4: for the target type SET an array is rendered as one quoted literal,
    which the engine reads back as the elements joined by commas. *)
Theorem convertToSQL_set_literal (items : list value) :
  exists literal,
    convertToSQL (VArray items) "SET" = Ok (VString literal)
    /\ parse_literal literal = Some (array_join items).
Proof.
  exists (quoted (array_join items)). split; [reflexivity |].
  apply parse_literal_quoted.
Qed.

(** X5: the string-list token renders an array of strings as the
    parenthesised, comma-separated list of their quoted literals; an array
    with an element that is not a string makes it fail with the language's
    own [TypeError], not with an [sb.Error]. *)
Theorem string_list_token (l : list string) (items : list value) :
  parseFormatSymbol "s+" (VArray (map VString l))
  = Ok ("(" +:+ join "," (map quoted l) +:+ ")")
  /\ ((exists i, In i items /\ typeof i <> TString) ->
      parseFormatSymbol "s+" (VArray items) = Thrown TypeError).
Proof.
  split.
  - unfold parseFormatSymbol. cbn [String.eqb Ascii.eqb Bool.eqb].
    rewrite map_result_strings, map_map. reflexivity.
  - intros Hbad. unfold parseFormatSymbol. cbn [String.eqb Ascii.eqb Bool.eqb].
    now rewrite map_result_not_string.
Qed.

Lemma array_join_strings (l : list string) :
  array_join (map VString l) = join "," l.
Proof.
  unfold array_join. cbn [to_string]. rewrite map_map. f_equal.
  induction l as [|s l IH]; [reflexivity |]. cbn [map]. now rewrite IH.
Qed.

(** X6: the number-list token checks that its parameter is an array and
    nothing else: strings in the array are copied into the statement as
    they are, without quotes and without escaping. *)
Theorem number_list_token_verbatim (l : list string) :
  parseFormatSymbol "n+" (VArray (map VString l)) = Ok ("(" +:+ join "," l +:+ ")").
Proof.
  unfold parseFormatSymbol. cbn [String.eqb Ascii.eqb Bool.eqb].
  now rewrite array_join_strings.
Qed.

(** X7: of the thirteen words [formatSymbolRegex] picks out of a condition,
    [parseFormatSymbol] knows nine; [p], [like], [*like] and [like*] are
    matched by the regular expression and then refused as unknown,
    whatever the parameter. *)
Theorem regex_tokens_refused (token : string) (param : value) :
  In token formatSymbolRegex_group ->
  (recognized token = false <-> In token ["p"; "like"; "like*"; "*like"])
  /\ (In token ["p"; "like"; "like*"; "*like"] ->
      parseFormatSymbol token param
      = Thrown (SbError "Unknown Recordset replace parameter" (Some (VString token)))).
Proof.
  intros Hin. cbn in Hin.
  repeat (destruct Hin as [<- | Hin];
          [ split;
            [ split; [ intros E; try discriminate E; cbn; tauto
                     | intros Hm; cbn in Hm;
                       repeat (destruct Hm as [Hm | Hm]; [try discriminate Hm |]);
                       try contradiction; reflexivity ]
            | intros Hm; cbn in Hm;
              repeat (destruct Hm as [Hm | Hm]; [try discriminate Hm |]);
              try contradiction; reflexivity ] | ]).
  contradiction.
Qed.
End MoreConverter.

Lemma convertToSQL_string_is_literal_witness :
  VString (H := sample_host) (quoted "O'Brien") = VString (quoted "O'Brien")
  /\ parse_literal (to_string (H := sample_host) (VString (quoted "O'Brien")))
     = Some "O'Brien".
Proof.
  apply (convertToSQL_string_is_literal (H := sample_host) "O'Brien" "VAR_STRING").
  reflexivity.
Defined.

Lemma regex_tokens_refused_witness :
  (recognized "like*" = false <-> In "like*" ["p"; "like"; "like*"; "*like"])
  /\ (In "like*" ["p"; "like"; "like*"; "*like"] ->
      parseFormatSymbol (H := sample_host) "like*" (VString "abc")
      = Thrown (SbError "Unknown Recordset replace parameter" (Some (VString "like*")))).
Proof.
  apply (regex_tokens_refused (H := sample_host) "like*" (VString "abc")).
  cbn. tauto.
Defined.

Lemma string_list_token_witness :
  parseFormatSymbol (H := sample_host) "s+" (VArray (map VString ["a"; "b'c"]))
  = Ok ("(" +:+ join "," (map quoted ["a"; "b'c"]) +:+ ")")
  /\ parseFormatSymbol (H := sample_host) "s+" (VArray [VString "a"; VNull])
     = Thrown TypeError.
Proof.
  split.
  - apply (string_list_token (H := sample_host) ["a"; "b'c"] []).
  - apply (string_list_token (H := sample_host) [] [VString "a"; VNull]).
    exists VNull. split; [cbn; tauto | discriminate].
Defined.

(** ** Column flags *)

Lemma land_pow2_testbit (a k : Z) :
  (0 <= k)%Z -> negb (Z.eqb (Z.land a (2 ^ k)) 0) = Z.testbit a k.
Proof.
  intros Hk. destruct (Z.testbit a k) eqn:E.
  - apply negb_true_iff, Z.eqb_neq. intros E0.
    assert (Hb : Z.testbit (Z.land a (2 ^ k)) k = true)
      by (rewrite Z.land_spec, E, Z.pow2_bits_true by exact Hk; reflexivity).
    rewrite E0, Z.bits_0 in Hb. discriminate.
  - apply negb_false_iff, Z.eqb_eq. apply Z.bits_inj'. intros n Hn.
    rewrite Z.bits_0, Z.land_spec, Z.pow2_bits_eqb by exact Hk.
    destruct (Z.eqb_spec k n) as [->|_]; [now rewrite E | apply andb_false_r].
Qed.

(** X8: the three booleans of a column definition are exactly bits 0, 1
    and 5 of the flags the driver reports for the column; no other bit of
    the flags has any effect on the definition. *)
Theorem decode_column_bits (column : ColumnMeta) :
  notNull (decode_column column) = Z.testbit (cm_flags column) 0
  /\ primaryKey (decode_column column) = Z.testbit (cm_flags column) 1
  /\ unsigned (decode_column column) = Z.testbit (cm_flags column) 5
  /\ name (decode_column column) = cm_name column
  /\ type (decode_column column) = cm_type column.
Proof.
  unfold decode_column, has_flag. cbn [notNull primaryKey unsigned name type].
  repeat split.
  - apply (land_pow2_testbit _ 0). lia.
  - apply (land_pow2_testbit _ 1). lia.
  - apply (land_pow2_testbit _ 5). lia.
Qed.

(** ** The schema cache *)

Section MoreCache.
Context `{Host}.
Variable O : host_objects.
Variable D : driver.

Lemma cached_own w database table c s :
  tableDefinitions w !! database = Some c ->
  props c !! table = Some s ->
  cached O w database table
  = Ok (match s with SDef d => Some (CDef d) | SNull => None end).
Proof.
  intros Hc Hs. unfold cached, container_get. rewrite Hc, Hs. now destruct s.
Qed.

Lemma raw_throws_DriverError args w e w' :
  raw D args w = (Throws e, w') -> e = DriverError.
Proof.
  destruct (acquire D (trace w)) eqn:Ha.
  - rewrite raw_acquired by exact Ha. cbv zeta.
    match goal with |- context [if ?b then _ else _] => destruct b end;
      [match goal with |- context [match ?p with Some _ => _ | None => _ end] =>
         destruct p end |]; congruence.
  - rewrite raw_not_acquired by exact Ha. congruence.
Qed.

Lemma own_entry_kept_getDefinition database table database' table' w c' s :
  (database', table') <> (database, table) ->
  tableDefinitions w !! database' = Some c' ->
  props c' !! table' = Some s ->
  exists c'',
    tableDefinitions (snd (getDefinition O D database table w)) !! database' = Some c''
    /\ props c'' !! table' = Some s.
Proof.
  intros Hne Hc Hs.
  destruct (cached O w database table) as [[v|]| e] eqn:E.
  - rewrite (getDefinition_hit O D database table w v E). eauto.
  - rewrite getDefinition_miss by exact E.
    assert (He : tableDefinitions (snd (ensure_database O database w)) !! database'
                 = Some c').
    { unfold ensure_database.
      destruct (tableDefinitions w !! database) as [c|] eqn:Hd; [exact Hc |].
      assert (Hnew : <[database := empty_container]> (tableDefinitions w) !! database'
                     = Some c')
        by (rewrite lookup_insert_ne by congruence; exact Hc).
      cbv zeta. destruct (resolves O (host_log w) database); [| exact Hnew].
      destruct (host_ensure O (host_log w) database); [exact Hc | exact Hnew | exact Hc]. }
    destruct (ensure_database O database w) as [[[]| e |] w0]; cbn [snd] in He |- *;
      eauto.
    destruct (raw_extends D [introspection_sql database table] w0) as [evs Hevs].
    destruct (raw D [introspection_sql database table] w0) as [[data| e |] w1];
      cbn [snd] in Hevs |- *; subst w1; cbn [extend tableDefinitions]; eauto.
    unfold store_definition. cbn [extend tableDefinitions host_log].
    destruct (tableDefinitions w0 !! database) as [c|] eqn:Hd.
    + cbn [snd set_cache tableDefinitions].
      destruct (decide (database' = database)) as [-> | Hdb].
      * rewrite lookup_insert_eq. rewrite Hd in He. injection He as ->.
        eexists. split; [reflexivity |].
        rewrite container_set_other by congruence. exact Hs.
      * rewrite lookup_insert_ne by congruence. eauto.
    + destruct (resolves O (host_log w0) database);
        [destruct (host_store O (host_log w0) database table _) |]; cbn [snd]; eauto.
  - unfold getDefinition. rewrite E. eauto.
Qed.

Lemma own_entry_kept_invalidateDefinition database table database' table' w c' s :
  (database', table') <> (database, table) ->
  tableDefinitions w !! database' = Some c' ->
  props c' !! table' = Some s ->
  exists c'',
    tableDefinitions (snd (invalidateDefinition O database table w)) !! database'
    = Some c''
    /\ props c'' !! table' = Some s.
Proof.
  intros Hne Hc Hs. unfold invalidateDefinition.
  destruct (cached O w database table) as [[v|]| e]; cbn [snd]; eauto.
  destruct (tableDefinitions w !! database) as [c|] eqn:Hd.
  - cbn [snd set_cache tableDefinitions].
    destruct (decide (database' = database)) as [-> | Hdb].
    + rewrite lookup_insert_eq. rewrite Hd in Hc. injection Hc as ->.
      eexists. split; [reflexivity |].
      rewrite container_set_other by congruence. exact Hs.
    + rewrite lookup_insert_ne by congruence. eauto.
  - destruct (host_invalidate O (host_log w) database table); cbn [snd]; eauto.
Qed.

(** X9: when the introspection fails for a database name the array does
    not resolve by itself, the error is the driver's and no definition is
    stored; but the object created for the database before the query
    stays, so that afterwards the pair reads as absent unless that object
    is new and the table is named as a property every object inherits. *)
Theorem getDefinition_failure_leaves_object database table w e w' :
  (tableDefinitions w !! database = None -> resolves O (host_log w) database = false) ->
  cached O w database table = Ok None ->
  getDefinition O D database table w = (Throws e, w') ->
  e = DriverError
  /\ tableDefinitions w'
     = <[database := default empty_container (tableDefinitions w !! database)]>
         (tableDefinitions w)
  /\ cached O w' database table
     = Ok (match tableDefinitions w !! database with
           | Some _ => None
           | None => if inherited table then Some (CForeign table) else None
           end).
Proof.
  intros Hr Hmiss.
  destruct (getDefinition_unresolved O D database table w Hr Hmiss) as (w0 & _ & ->).
  destruct (raw D [introspection_sql database table] w0) as [[data| e0 |] w1] eqn:Hraw;
    try discriminate.
  intros [= <- <-]. split; [now apply raw_throws_DriverError in Hraw |].
  split; [reflexivity |].
  unfold cached, set_cache. cbn [tableDefinitions]. rewrite lookup_insert_eq.
  unfold cached in Hmiss.
  destruct (tableDefinitions w !! database) as [c|]; cbn [default].
  - exact Hmiss.
  - unfold container_get, empty_container. cbn [props proto]. now rewrite lookup_empty.
Qed.

(** X10: looking up or invalidating the definition of one table never
    changes what the cache answers for another pair whose entry is a
    property of the database's own object: a definition that was stored
    there, or one that was invalidated. *)
Theorem schema_cache_frame database table database' table' w c' s :
  (database', table') <> (database, table) ->
  tableDefinitions w !! database' = Some c' ->
  props c' !! table' = Some s ->
  cached O w database' table'
  = Ok (match s with SDef d => Some (CDef d) | SNull => None end)
  /\ cached O (snd (getDefinition O D database table w)) database' table'
     = cached O w database' table'
  /\ cached O (snd (invalidateDefinition O database table w)) database' table'
     = cached O w database' table'.
Proof.
  intros Hne Hc Hs.
  rewrite (cached_own w database' table' c' s Hc Hs).
  split; [reflexivity |]. split.
  - destruct (own_entry_kept_getDefinition database table database' table' w c' s
                Hne Hc Hs) as (c'' & Hc'' & Hs'').
    apply (cached_own _ database' table' c'' s Hc'' Hs'').
  - destruct (own_entry_kept_invalidateDefinition database table database' table' w c' s
                Hne Hc Hs) as (c'' & Hc'' & Hs'').
    apply (cached_own _ database' table' c'' s Hc'' Hs'').
Qed.

(** X11: [invalidateAllDefinitions] makes no call to the driver and drops
    every object the engine created; a [getDefinition] that then gets a
    connection sends its introspection query again, also for a table
    whose definition was cached before, provided the database name is not
    one the new array resolves by itself. *)
Theorem invalidateAllDefinitions_forces_query database table w :
  acquire D (trace w) = true ->
  resolves O (host_log w ++ [OpReset]) database = false ->
  trace (snd (invalidateAllDefinitions w)) = trace w
  /\ tableDefinitions (snd (invalidateAllDefinitions w)) = ∅
  /\ queried (trace (snd (getDefinition O D database table
                            (snd (invalidateAllDefinitions w)))))
     = queried (trace w) ++ [introspection_sql database table].
Proof.
  intros Ha Hr. unfold invalidateAllDefinitions, modify. cbn [snd].
  split; [reflexivity |]. split; [reflexivity |].
  rewrite getDefinition_miss_query; [reflexivity | intros _; exact Hr | | exact Ha].
  unfold cached. cbn [log_host set_cache tableDefinitions host_log].
  now rewrite lookup_empty, Hr.
Qed.

(** X27: for a database name the array does not resolve by itself and a
    table the cache does not answer, a [getDefinition] that succeeds has
    sent exactly one introspection query and returns the definition built
    from its answer; a second call returns the same definition and leaves
    the world, trace included, as it is; and after [invalidateDefinition]
    the pair reads as absent, and the next [getDefinition] that succeeds
    has sent one more introspection query and holds the definition it
    returns in the cache. *)
Theorem getDefinition_caches_plain_names database table w v1 w1 :
  (tableDefinitions w !! database = None -> resolves O (host_log w) database = false) ->
  cached O w database table = Ok None ->
  getDefinition O D database table w = (Returns v1, w1) ->
  queried (trace w1) = queried (trace w) ++ [introspection_sql database table]
  /\ (exists data, v1 = CDef (built database table data))
  /\ getDefinition O D database table w1 = (Returns v1, w1)
  /\ exists w2,
       invalidateDefinition O database table w1 = (Returns tt, w2)
       /\ trace w2 = trace w1
       /\ cached O w2 database table = Ok None
       /\ forall v2 w3,
            getDefinition O D database table w2 = (Returns v2, w3) ->
            queried (trace w3) = queried (trace w2) ++ [introspection_sql database table]
            /\ (exists data, v2 = CDef (built database table data))
            /\ cached O w3 database table = Ok (Some v2).
Proof.
  intros Hr Hmiss Hfirst.
  destruct (getDefinition_miss_returns O D database table w v1 w1 Hr Hmiss Hfirst)
    as (Hq & Hv & Hc & c & Hown).
  split; [exact Hq |]. split; [exact Hv |]. split; [now apply getDefinition_hit |].
  assert (Hget : container_get c table = Some v1)
    by (unfold cached in Hc; rewrite Hown in Hc; congruence).
  eexists. split; [apply (invalidateDefinition_own O database table w1 c v1 Hown Hget) |].
  split; [reflexivity |].
  assert (Hmiss2 :
    cached O (set_cache (<[database := container_set c table SNull]> (tableDefinitions w1)) w1)
      database table = Ok None).
  { unfold cached, set_cache. cbn [tableDefinitions].
    now rewrite lookup_insert_eq, container_get_unset. }
  split; [exact Hmiss2 |].
  intros v2 w3 Hsecond.
  destruct (getDefinition_miss_returns O D database table
              (set_cache (<[database := container_set c table SNull]> (tableDefinitions w1)) w1)
              v2 w3) as (Hq2 & Hv2 & Hc2 & _);
    [| exact Hmiss2 | exact Hsecond | now repeat split].
  cbn [set_cache tableDefinitions]. now rewrite lookup_insert_eq.
Qed.
End MoreCache.

Lemma release_count_app a b : release_count (a ++ b) = release_count a + release_count b.
Proof. unfold release_count. now rewrite List.filter_app, length_app. Qed.

Section MoreEngine.
Context `{Host}.
Variable D : driver.

(** X12: [raw] hands back exactly the connections it gets: the calls it
    adds to the trace hold as many [end] as acquisitions, at most one of
    each, and when the pool gives no connection no statement is sent. *)
Theorem raw_release_balance args w :
  exists evs,
    snd (raw D args w) = extend w evs
    /\ release_count evs = conn_count evs
    /\ conn_count evs <= 1
    /\ (conn_count evs = 0 -> queried evs = [] /\ fst (raw D args w) = Throws DriverError).
Proof.
  destruct (acquire D (trace w)) eqn:Ha.
  - rewrite raw_acquired by exact Ha. cbv zeta. cbn [fst snd].
    eexists. split; [reflexivity |]. cbn. repeat split; try lia; discriminate.
  - rewrite raw_not_acquired by exact Ha. cbn [fst snd].
    eexists. split; [reflexivity |]. cbn. repeat split; lia.
Qed.

Lemma getTransaction_extends w :
  exists evs, snd (getTransaction D w) = extend w evs /\ release_count evs = 0.
Proof.
  unfold getTransaction, bind, pool_getConnection, connector_beginTransaction,
    modify, ret.
  destruct (acquire D (trace w)); cbn [snd]; rewrite !log_extend, ?extend_extend;
    eexists; split; reflexivity.
Qed.

Lemma attempt_extends c sql w :
  exists evs,
    snd (try_catch
           (let* p := connector_query D c sql in
            let* _ := await p in
            connector_commit D c)
           (connector_rollback D c) w) = extend w evs
    /\ release_count evs = 0.
Proof.
  unfold try_catch, bind, connector_query, await, connector_commit,
    connector_rollback, ret, throw.
  destruct (run_query D (trace w) c sql); cbn [settled].
  - match goal with |- context [run_commit D ?t c] => destruct (run_commit D t c) end.
    + cbn [snd]. rewrite !log_extend, ?extend_extend. eexists; split; reflexivity.
    + match goal with |- context [run_rollback D ?t c] =>
        destruct (run_rollback D t c) end;
        cbn [snd]; rewrite !log_extend, ?extend_extend; eexists; split; reflexivity.
  - match goal with |- context [run_rollback D ?t c] =>
      destruct (run_rollback D t c) end;
      cbn [snd]; rewrite !log_extend, ?extend_extend; eexists; split; reflexivity.
Qed.

Lemma batch_loop_never_releases fuel : forall queries i w,
  exists evs,
    snd (batch_loop D fuel queries i w) = extend w evs /\ release_count evs = 0.
Proof.
  induction fuel as [|fuel IH]; intros queries i w; cbn [batch_loop].
  - exists []. now rewrite extend_nil.
  - destruct (i <=? length queries).
    2:{ exists []. unfold ret. cbn [snd]. now rewrite extend_nil. }
    destruct (getTransaction_extends w) as (e1 & H1 & R1).
    unfold bind at 1.
    destruct (getTransaction D w) as [[c | e |] w1]; cbn [snd] in H1; subst w1;
      [| now exists e1 | now exists e1].
    destruct (attempt_extends c
      (join (str1 chr_newline) (slice queries i (i + updateBatchLimit)))
      (extend w e1)) as (e2 & H2 & R2).
    unfold bind at 1.
    match goal with |- context [try_catch ?b ?h (extend w e1)] =>
      destruct (try_catch b h (extend w e1)) as [[u | e |] w2] end;
      cbn [snd] in H2; subst w2; rewrite extend_extend;
      [| exists (e1 ++ e2); cbn [snd]; rewrite release_count_app; split; [reflexivity | lia]
       | exists (e1 ++ e2); cbn [snd]; rewrite release_count_app; split; [reflexivity | lia]].
    destruct (IH queries (i + updateBatchLimit) (extend w (e1 ++ e2))) as (e3 & H3 & R3).
    rewrite H3, extend_extend. exists ((e1 ++ e2) ++ e3).
    rewrite !release_count_app. split; [reflexivity | lia].
Qed.

Lemma batchUpdate_extends_without_release {Row} (data : list Row) toSQL w :
  exists evs,
    snd (batchUpdate D data toSQL w) = extend w evs /\ release_count evs = 0.
Proof.
  unfold batchUpdate.
  destruct (map_result (render_row toSQL) data) as [queries | e]; cbn [lift_result].
  - unfold bind, ret. apply batch_loop_never_releases.
  - exists []. unfold bind, throw. cbn [snd]. now rewrite extend_nil.
Qed.

(** X13: [batchUpdate] never hands a connection back: whatever the driver
    answers, the calls it makes hold no [connector.end()], although every
    chunk takes a connection of its own from the pool. *)
Theorem batchUpdate_never_releases {Row} (data : list Row) toSQL w :
  exists evs,
    snd (batchUpdate D data toSQL w) = extend w evs /\ release_count evs = 0.
Proof. apply batchUpdate_extends_without_release. Qed.

Lemma batch_run_conn_count c slices evs os :
  batch_run c slices evs os -> conn_count evs = length slices.
Proof.
  induction 1 as [|c stmts rest evs evs' o os Hc _ IH]; [reflexivity |].
  rewrite conn_count_app, IH, (chunk_run_conn_count _ _ _ _ Hc). reflexivity.
Qed.

(** X14: when the pool hands out connections and rollbacks go through, a
    batch of n rows takes [n / 1000 + 1] connections from the pool, one per
    iteration of the loop, and keeps them all. *)
Theorem batchUpdate_connection_count {Row} (data : list Row) toSQL queries w :
  (forall tr, acquire D tr = true) ->
  (forall tr c, run_rollback D tr c = true) ->
  map_result (render_row toSQL) data = Ok queries ->
  exists evs,
    snd (batchUpdate D data toSQL w) = extend w evs
    /\ conn_count evs = length data / updateBatchLimit + 1
    /\ release_count evs = 0.
Proof.
  intros Ha Hr Hq.
  destruct (batchUpdate_run D data toSQL queries w Ha Hr Hq) as (evs & os & E & Hrun).
  destruct (batchUpdate_extends_without_release data toSQL w) as (evs' & E' & Hrel).
  rewrite E in E' |- *. cbn [snd] in E' |- *.
  assert (evs = evs') as <-.
  { apply (f_equal trace) in E'. cbn [extend trace] in E'.
    now apply app_inv_head in E'. }
  exists evs. split; [reflexivity |]. split; [| exact Hrel].
  rewrite (batch_run_conn_count _ _ _ _ Hrun), chunks_count.
  assert (Hlen : length queries = length data).
  { clear -Hq. revert queries Hq.
    induction data as [|row data IH]; intros queries Hq; cbn [map_result] in Hq.
    - now injection Hq as <-.
    - destruct (render_row toSQL row); [| discriminate].
      destruct (map_result (render_row toSQL) data) as [qs|]; [| discriminate].
      injection Hq as <-. cbn [length]. now rewrite (IH qs). }
  now rewrite Hlen.
Qed.

(** X15: a row that does not render stops the batch before anything is
    sent: when [toSQL] throws for a row of the input, [batchUpdate] throws
    and the world, trace included, is as it was. *)
Theorem batchUpdate_render_failure {Row} (data : list Row) toSQL w :
  (exists row e, In row data /\ toSQL row = Thrown e) ->
  exists e, batchUpdate D data toSQL w = (Throws e, w).
Proof.
  intros (row & e & Hin & Hrow).
  assert (Hm : exists e', map_result (render_row toSQL) data = Thrown e').
  { induction data as [|x data IH]; [destruct Hin |].
    cbn [map_result]. destruct (render_row toSQL x) eqn:Hx; [| eauto].
    destruct Hin as [-> | Hin].
    - unfold render_row in Hx. rewrite Hrow in Hx. discriminate.
    - destruct (IH Hin) as [e' ->]. eauto. }
  destruct Hm as [e' Hm]. exists e'.
  unfold batchUpdate. rewrite Hm. reflexivity.
Qed.
End MoreEngine.

(** ** The shape of the chunks *)

Lemma slices_full fuel : forall (qs : list string) i k chunk,
  batch_slices fuel qs i !! k = Some chunk ->
  S k < length (batch_slices fuel qs i) ->
  length chunk = updateBatchLimit.
Proof.
  pose proof updateBatchLimit_pos as Hpos.
  induction fuel as [|fuel IH]; intros qs i k chunk Hk Hlast; [discriminate |].
  cbn [batch_slices] in Hk, Hlast.
  destruct (Nat.leb_spec i (length qs)) as [Hi|Hi]; [| discriminate].
  destruct k as [|k].
  - cbn in Hk. injection Hk as <-.
    cbn [length] in Hlast.
    destruct fuel as [|fuel']; [cbn in Hlast; lia |].
    cbn [batch_slices] in Hlast.
    destruct (Nat.leb_spec (i + updateBatchLimit) (length qs)) as [Hn|Hn];
      [| cbn in Hlast; lia].
    unfold slice. rewrite length_take, length_drop. lia.
  - cbn in Hk. cbn [length] in Hlast.
    apply (IH qs (i + updateBatchLimit) k chunk Hk). lia.
Qed.

(** X16: the statements of a batch are cut, in order and without loss or
    repetition, into [n / 1000 + 1] chunks; every chunk but the last holds
    exactly 1000 statements and the last holds the [n mod 1000] that
    remain, none when n is a multiple of 1000 (the empty batch included). *)
Theorem chunks_shape (qs : list string) :
  concat (chunks qs) = qs
  /\ length (chunks qs) = length qs / updateBatchLimit + 1
  /\ (forall k chunk, chunks qs !! k = Some chunk -> S k < length (chunks qs) ->
        length chunk = updateBatchLimit)
  /\ (forall chunk, last (chunks qs) = Some chunk ->
        length chunk = length qs mod updateBatchLimit).
Proof.
  pose proof updateBatchLimit_pos as Hpos.
  split; [apply chunks_concat |]. split; [apply chunks_count |].
  split; [intros k chunk; apply slices_full |].
  intros chunk Hlast.
  pose proof (chunks_concat qs) as Hc.
  pose proof (chunks_count qs) as Hn.
  assert (Hfull : forall k c, chunks qs !! k = Some c -> S k < length (chunks qs) ->
                    length c = updateBatchLimit) by (intros k c; apply slices_full).
  revert Hc Hn Hfull Hlast. generalize (chunks qs) as cs.
  intros cs Hc Hn Hfull Hlast.
  destruct (exists_last (l := cs)) as (front & lastc & ->).
  { intros ->. cbn in Hn. lia. }
  rewrite last_snoc in Hlast. injection Hlast as ->.
  assert (Hfront : length (concat front) = length front * updateBatchLimit).
  { clear -Hfull.
    assert (Hf : forall c, In c front -> length c = updateBatchLimit).
    { intros c Hin. apply list_elem_of_In, list_elem_of_lookup in Hin as [k Hk].
      apply (Hfull k c).
      - rewrite lookup_app_l; [exact Hk | now apply lookup_lt_Some in Hk].
      - apply lookup_lt_Some in Hk. rewrite length_app. cbn. lia. }
    clear Hfull. induction front as [|c front IH]; [reflexivity |].
    cbn [concat]. rewrite length_app.
    rewrite (Hf c) by (left; reflexivity).
    rewrite IH by (intros c' Hc'; apply Hf; now right).
    cbn [length]. lia. }
  rewrite length_app in Hn. cbn [length] in Hn.
  assert (Hq : length front = length qs / updateBatchLimit) by lia.
  apply (f_equal (@length string)) in Hc.
  rewrite concat_app, length_app, Hfront in Hc. cbn [concat] in Hc.
  rewrite app_nil_r in Hc.
  pose proof (Nat.div_mod_eq (length qs) updateBatchLimit) as Hdm.
  rewrite <- Hq in Hdm. lia.
Qed.

(** ** ExtraNews *)

Lemma check_rows_find code rows :
  check_rows code rows
  = match List.find (fun i => String.eqb (Code i) code) rows with
    | Some _ => true
    | None => false
    end.
Proof.
  induction rows as [|row rows IH]; [reflexivity |].
  cbn [check_rows List.find]. now destruct (String.eqb (Code row) code).
Qed.

Section ExtraNewsProperties.
Context `{Host}.
Variable JSON_parse : string -> result (list string).
Variable randArray : forall A : Type, list A -> option A.
Variable parseURL : string -> result (list FeedItem).
Variable new_sbDate_of : option string -> time.

(** X17: once the data is loaded, [check] answers true exactly for the
    codes whose lower-case form is the [Code] of a loaded source, and
    [fetch] refuses, before it asks for any feed, exactly the codes for
    which [check] answers false; for the others it goes on from a source
    with that code. *)
Theorem fetch_agrees_with_check code query st rows :
  en_data st = Sources rows ->
  (check code st = Ok true
   <-> exists row, In row rows /\ Code row = lower_string code)
  /\ (check code st = Ok false ->
      fetch randArray parseURL new_sbDate_of code query st
      = Thrown (SbError "Extra news code does not exist!" None))
  /\ (check code st = Ok true ->
      exists row, In row rows /\ Code row = lower_string code
                  /\ fetch randArray parseURL new_sbDate_of code query st
                     = fetch_from randArray parseURL new_sbDate_of row query).
Proof.
  intros Hd. unfold check, fetch. rewrite Hd, check_rows_find.
  destruct (List.find _ rows) as [row|] eqn:Hf.
  - apply List.find_some in Hf as [Hin Hc]. apply String.eqb_eq in Hc.
    split; [split; [eauto | reflexivity] |].
    split; [discriminate | eauto].
  - split; [| split; [reflexivity | discriminate]].
    split; [discriminate |].
    intros (row & Hin & Hc).
    pose proof (List.find_none _ _ Hf row Hin) as Hn. cbn in Hn.
    rewrite Hc, String.eqb_refl in Hn. discriminate.
Qed.

(** X18: with a query that is not empty, an article that [fetch] returns
    comes from a feed item whose title or content holds the lower-case
    query, provided [randArray] returns an element of the array it is
    given. *)
Theorem fetch_respects_query code q st article :
  (forall A (l : list A) x, randArray A l = Some x -> In x l) ->
  q <> EmptyString ->
  fetch randArray parseURL new_sbDate_of code (Some q) st = Ok (Some article) ->
  exists item,
    item_matches (lower_string q) item = true
    /\ title article = item_title item
    /\ content article = item_content item
    /\ link article = link_or_url item.
Proof.
  intros Hrand Hq. unfold fetch.
  destruct (en_data st) as [|rows]; [discriminate |].
  destruct (List.find _ rows) as [row|]; [| discriminate].
  unfold fetch_from.
  destruct (parseURL _) as [items | e]; [| discriminate].
  destruct (String.eqb_spec q EmptyString) as [->|_]; [now elim Hq |].
  destruct (randArray FeedItem _) as [item|] eqn:Hpick; [| discriminate].
  intros [= <-]. exists item.
  apply Hrand, List.filter_In in Hpick as [_ Hm]. now repeat split.
Qed.

(** X19: whether the table exists is asked once.  When the first load
    found no table data.Extra_News, every later [reloadData] leaves the
    module with no sources, whatever the database has become by then, and
    [check] answers false for every code. *)
Theorem absent_table_is_remembered db db' st code :
  en_tableExists st = None ->
  isTablePresent (db_same db) (db_catalog db) "data" "Extra_News" = false ->
  let st1 := snd (loadData JSON_parse db st) in
  reloadData JSON_parse db' st1 = (Ok tt, st1)
  /\ en_data st1 = Sources []
  /\ check code st1 = Ok false.
Proof.
  intros Hnone Habsent. unfold reloadData, loadData.
  rewrite Hnone, Habsent. cbn. repeat split.
Qed.

(** X20: one source whose Endpoints are not valid JSON makes [reloadData]
    throw and leaves the module with the object it started from instead
    of an array: from then on [check] and [fetch] raise a [TypeError]. *)
Theorem reloadData_bad_row db st code query :
  en_tableExists st = Some true ->
  (exists row e, In row (db_rows db) /\ JSON_parse (raw_Endpoints row) = Thrown e) ->
  exists e st',
    reloadData JSON_parse db st = (Thrown e, st')
    /\ en_data st' = NoData
    /\ check code st' = Thrown TypeError
    /\ fetch randArray parseURL new_sbDate_of code query st' = Thrown TypeError.
Proof.
  intros Hknown (row & e & Hin & Hbad).
  assert (Hm : exists e', map_result (parse_source JSON_parse) (db_rows db) = Thrown e').
  { induction (db_rows db) as [|x rows IH]; [destruct Hin |].
    cbn [map_result]. destruct (parse_source JSON_parse x) eqn:Hx; [| eauto].
    destruct Hin as [-> | Hin].
    - unfold parse_source in Hx. rewrite Hbad in Hx. discriminate.
    - destruct (IH Hin) as [e' ->]. eauto. }
  destruct Hm as [e' Hm].
  unfold reloadData, loadData. cbn [en_tableExists en_data]. rewrite Hknown, Hm.
  eexists _, _. split; [reflexivity |]. repeat split.
Qed.
End ExtraNewsProperties.

(** ** Runtime *)

Lemma runtime_run_snoc calls c r :
  runtime_run (calls ++ [c]) r = runtime_step (runtime_run calls r) c.
Proof. unfold runtime_run. now rewrite fold_left_app. Qed.

Lemma count_call_snoc which calls c :
  count_call which (calls ++ [c]) = count_call which calls + (if which c then 1 else 0).
Proof.
  unfold count_call. rewrite List.filter_app, length_app. cbn [List.filter].
  now destruct (which c).
Qed.

Lemma count_call_le which calls : count_call which calls <= length calls.
Proof. unfold count_call. apply List.filter_length_le. Qed.

Lemma timeouts_of_snoc channel calls c :
  timeouts_of channel (calls ++ [c])
  = timeouts_of channel calls
    + match c with
      | BanphraseTimeout key => if String.eqb key channel then 1 else 0
      | _ => 0
      end.
Proof.
  unfold timeouts_of. rewrite List.filter_app, length_app. cbn [List.filter].
  destruct c as [| | key |]; try reflexivity.
  now destruct (String.eqb key channel).
Qed.

Lemma timeouts_of_le channel calls : timeouts_of channel calls <= length calls.
Proof. unfold timeouts_of. apply List.filter_length_le. Qed.

Lemma js_incr_small (n : nat) :
  (Z.of_nat n < 2 ^ 53)%Z -> js_incr (Num (Z.of_nat n)) = Num (Z.of_nat (n + 1)).
Proof.
  intros Hn. unfold js_incr.
  destruct (Z.ltb_spec (Z.of_nat n) (2 ^ 53)); [| lia].
  f_equal. lia.
Qed.

Lemma inherited_proto : inherited "__proto__" = true.
Proof. reflexivity. Qed.

Lemma assign_lookup_other table key x channel :
  key <> channel -> assign table key x !! channel = table !! channel.
Proof.
  intros Hne. unfold assign. destruct (String.eqb key "__proto__"); [reflexivity |].
  now rewrite lookup_insert_ne.
Qed.

Lemma assign_lookup_same table key x :
  key <> "__proto__" -> assign table key x !! key = Some x.
Proof.
  intros Hne. unfold assign.
  destruct (String.eqb_spec key "__proto__"); [contradiction |].
  apply lookup_insert_eq.
Qed.

Lemma banphrase_other channel key r :
  key <> channel ->
  banphraseTimeouts (incrementBanphraseTimeouts key r) !! channel
  = banphraseTimeouts r !! channel.
Proof.
  intros Hne. unfold incrementBanphraseTimeouts. cbn [banphraseTimeouts].
  rewrite assign_lookup_other by exact Hne.
  destruct (counter_falsy _ key); [now rewrite assign_lookup_other | reflexivity].
Qed.

Lemma banphrase_same channel n r :
  inherited channel = false ->
  (Z.of_nat n < 2 ^ 53)%Z ->
  banphraseTimeouts r !! channel
  = (if n =? 0 then None else Some (Num (Z.of_nat n))) ->
  banphraseTimeouts (incrementBanphraseTimeouts channel r) !! channel
  = (if n + 1 =? 0 then None else Some (Num (Z.of_nat (n + 1)))).
Proof.
  intros Hi Hn Hc.
  assert (Hp : channel <> "__proto__") by (intros ->; discriminate Hi).
  replace (n + 1 =? 0) with false by (symmetry; apply Nat.eqb_neq; lia).
  unfold incrementBanphraseTimeouts. cbn [banphraseTimeouts].
  rewrite assign_lookup_same by exact Hp. f_equal.
  unfold counter_falsy, read_number. rewrite Hc.
  destruct n as [|n].
  - cbn [Nat.eqb]. rewrite Hi. cbn [negb].
    rewrite assign_lookup_same by exact Hp. reflexivity.
  - cbn [Nat.eqb].
    destruct (Z.eqb_spec (Z.of_nat (S n)) 0); [lia |].
    rewrite Hc. cbn [Nat.eqb]. now apply js_incr_small.
Qed.

(** X21: the counters of [Runtime] count calls and never disturb one
    another: after any sequence of fewer than 2^53 calls on a fresh
    module, each of the three plain counters is the number of calls to its
    own increment, and the table of banphrase timeouts holds, for every
    channel whose name is not an inherited property name, the number of
    timeouts of that channel, and no entry when there was none. *)
Theorem runtime_counts_calls (calls : list runtime_call) :
  (Z.of_nat (length calls) < 2 ^ 53)%Z ->
  let r := runtime_run calls new_Runtime in
  commandsUsed r = Num (Z.of_nat (count_call is_CommandUsed calls))
  /\ rejectedCommands r = Num (Z.of_nat (count_call is_CommandRejected calls))
  /\ scriptHotloads r = Num (Z.of_nat (count_call is_ScriptHotloaded calls))
  /\ forall channel,
       inherited channel = false ->
       banphraseTimeouts r !! channel
       = if timeouts_of channel calls =? 0 then None
         else Some (Num (Z.of_nat (timeouts_of channel calls))).
Proof.
  cbv zeta.
  induction calls as [|c calls IH] using rev_ind; intros Hlen.
  - cbn. repeat split.
  - rewrite length_app in Hlen. cbn [length] in Hlen.
    destruct IH as (Hu & Hr & Hs & Hb); [lia |].
    rewrite runtime_run_snoc, !count_call_snoc.
    pose proof (count_call_le is_CommandUsed calls).
    pose proof (count_call_le is_CommandRejected calls).
    pose proof (count_call_le is_ScriptHotloaded calls).
    split; [| split; [| split]].
    + destruct c; cbn [runtime_step is_CommandUsed]; cbn; rewrite Hu;
        rewrite ?Nat.add_0_r; try reflexivity.
      apply js_incr_small. lia.
    + destruct c; cbn [runtime_step is_CommandRejected]; cbn; rewrite Hr;
        rewrite ?Nat.add_0_r; try reflexivity.
      apply js_incr_small. lia.
    + destruct c; cbn [runtime_step is_ScriptHotloaded]; cbn; rewrite Hs;
        rewrite ?Nat.add_0_r; try reflexivity.
      apply js_incr_small. lia.
    + intros channel Hi. specialize (Hb channel Hi).
      rewrite timeouts_of_snoc.
      pose proof (timeouts_of_le channel calls) as Hn.
      destruct c as [| | key |]; cbn [runtime_step];
        try (rewrite Nat.add_0_r; exact Hb).
      destruct (String.eqb_spec key channel) as [->|Hne].
      * apply (banphrase_same channel (timeouts_of channel calls));
          [exact Hi | lia | exact Hb].
      * rewrite Nat.add_0_r, banphrase_other by exact Hne. exact Hb.
Qed.

(** X22: a channel that bears the name of an inherited function, such as
    [constructor], is miscounted: its first timeout stores NaN instead of
    1, the next one starts the count again from 0, and so after two or
    more timeouts the table is one short. *)
Theorem inherited_channel_miscounted (channel : string) (k : nat) :
  inherited channel = true ->
  channel <> "__proto__" ->
  (Z.of_nat k < 2 ^ 53)%Z ->
  banphraseTimeouts (incrementBanphraseTimeouts channel new_Runtime) !! channel
  = Some NaN
  /\ banphraseTimeouts
       (Nat.iter (S (S k)) (incrementBanphraseTimeouts channel) new_Runtime) !! channel
     = Some (Num (Z.of_nat (S k))).
Proof.
  intros Hi Hp Hk.
  assert (H1 : banphraseTimeouts (incrementBanphraseTimeouts channel new_Runtime)
               !! channel = Some NaN).
  { unfold incrementBanphraseTimeouts, counter_falsy, read_number.
    cbn [banphraseTimeouts new_Runtime]. rewrite lookup_empty, Hi. cbn [negb].
    rewrite lookup_empty. cbn [js_incr]. now apply assign_lookup_same. }
  split; [exact H1 |].
  induction k as [|k IH].
  - rewrite !Nat.iter_succ. cbn [Nat.iter nat_rect].
    unfold incrementBanphraseTimeouts at 1. cbn [banphraseTimeouts].
    rewrite assign_lookup_same by exact Hp. f_equal.
    unfold counter_falsy, read_number. rewrite H1.
    rewrite assign_lookup_same by exact Hp. reflexivity.
  - rewrite Nat.iter_succ.
    unfold incrementBanphraseTimeouts at 1. cbn [banphraseTimeouts].
    rewrite assign_lookup_same by exact Hp. f_equal.
    unfold counter_falsy, read_number. rewrite IH by lia.
    destruct (Z.eqb_spec (Z.of_nat (S k)) 0); [lia |].
    rewrite IH by lia.
    replace (S (S k)) with (S k + 1) by lia. apply js_incr_small. lia.
Qed.

(** ** MarkovChain *)

Section MarkovChainProperties.
Context `{Host}.
Variables json model amount text output : Type.
Variable JSON_parse : string -> option (option json).
Variable Markov : option json -> model.
Variable definition_of : model -> option json.
Variable one : amount.
Variable model_sentence : model -> amount -> result output * model.
Variable model_words : model -> amount -> result output * model.
Variable model_train : model -> text -> result output * model.

(** X23: a chain whose stored definition does not parse can never be
    used: [sentences], [words] and [train] all throw the error that names
    the chain and says it cannot proceed, and leave the chain as it was,
    so that every later call fails the same way. *)
Theorem invalid_definition_cannot_proceed (data : MarkovRow) s a d :
  row_Definition data = Some s ->
  s <> EmptyString ->
  JSON_parse s = None ->
  let c := new_MarkovChain json model JSON_parse Markov data in
  let e := SbError ("Markov chain model ID " +:+ to_string (row_ID data)
                    +:+ " has invalid definition. Cannot proceed") None in
  sentences json model amount output Markov definition_of one model_sentence a c
  = (Thrown e, c)
  /\ words json model amount output Markov definition_of one model_words a c
     = (Thrown e, c)
  /\ train json model text output Markov definition_of model_train d c = (Thrown e, c).
Proof.
  intros Hd Hs Hp. cbv zeta. unfold new_MarkovChain. rewrite Hd.
  destruct s as [|ch s]; [now elim Hs |]. rewrite Hp.
  repeat split.
Qed.

(** A definition whose text is the JSON value [null] parses, and is then
    taken for one that did not. *)
Lemma null_definition_cannot_proceed (data : MarkovRow) s a d :
  row_Definition data = Some s ->
  s <> EmptyString ->
  JSON_parse s = Some None ->
  let c := new_MarkovChain json model JSON_parse Markov data in
  let e := SbError ("Markov chain model ID " +:+ to_string (row_ID data)
                    +:+ " has invalid definition. Cannot proceed") None in
  sentences json model amount output Markov definition_of one model_sentence a c
  = (Thrown e, c)
  /\ train json model text output Markov definition_of model_train d c = (Thrown e, c).
Proof.
  intros Hd Hs Hp. cbv zeta. unfold new_MarkovChain. rewrite Hd.
  destruct s as [|ch s]; [now elim Hs |]. rewrite Hp.
  repeat split.
Qed.

(** X24: a chain built from a row with a definition holds no model until
    it is first used, and [destroy] on such a chain raises a [TypeError]
    and changes nothing. *)
Theorem destroy_before_use_throws (data : MarkovRow) s :
  row_Definition data = Some s ->
  s <> EmptyString ->
  let c := new_MarkovChain json model JSON_parse Markov data in
  mc_model c = None
  /\ destroy json model c = (Thrown TypeError, c).
Proof.
  intros Hd Hs. cbv zeta. unfold new_MarkovChain. rewrite Hd.
  destruct s as [|ch s]; [now elim Hs |]. split; reflexivity.
Qed.

(** X25: for a definition that parses to a value other than [null], the
    model is built from the definition once, at the first use, and kept:
    what [train] did to it is what a later [sentences] works on.  The
    definition is an object the model shares; after [destroy] the next
    use builds a new model from that object as the library has left it,
    so that whatever the library trained into it is carried over. *)
Theorem model_loaded_once (data : MarkovRow) s j a d :
  row_Definition data = Some s ->
  s <> EmptyString ->
  JSON_parse s = Some (Some j) ->
  let c := new_MarkovChain json model JSON_parse Markov data in
  let trained := train json model text output Markov definition_of model_train d c in
  let m1 := snd (model_train (Markov (Some j)) d) in
  let j1 := default (default j (definition_of (Markov (Some j)))) (definition_of m1) in
  fst trained = fst (model_train (Markov (Some j)) d)
  /\ mc_model (snd trained) = Some m1
  /\ mc_Definition (snd trained) = DParsed j1
  /\ fst (sentences json model amount output Markov definition_of one model_sentence a
            (snd trained))
     = fst (model_sentence m1 (default one a))
  /\ fst (destroy json model (snd trained)) = Ok tt
  /\ mc_Definition (snd (destroy json model (snd trained))) = DParsed j1
  /\ fst (sentences json model amount output Markov definition_of one model_sentence a
            (snd (destroy json model (snd trained))))
     = fst (model_sentence (Markov (Some j1)) (default one a)).
Proof.
  intros Hd Hs Hp. cbv zeta. unfold new_MarkovChain. rewrite Hd.
  destruct s as [|ch s]; [now elim Hs |]. rewrite Hp.
  unfold train, sentences, call_model, ensure_loaded, load, destroy, shared.
  cbn [mc_prepared mc_Definition mc_model mc_ID mc_Name].
  destruct (model_train (Markov (Some j)) d) as [out1 m1].
  cbn [fst snd mc_prepared mc_Definition mc_model mc_ID mc_Name].
  destruct (definition_of (Markov (Some j))) as [j0|];
    destruct (definition_of m1) as [j1|];
    cbn [default from_option id fst snd mc_prepared mc_Definition mc_model mc_ID mc_Name];
    repeat split;
    match goal with
    | |- context [model_sentence ?m ?y] => now destruct (model_sentence m y)
    end.
Qed.
End MarkovChainProperties.

(** ** The constructor of Query *)

(** X26: the constructor either refuses with the one message "Database
    access must be initialized first" (its second [throw] can never be
    reached) or builds a pool with multiple statements enabled; and when
    MARIA_SOCKET_PATH is set, the pool connects through the fixed socket
    /var/run/mysqld/mysqld.sock, whatever path the variable holds and
    whether or not MARIA_HOST is set as well. *)
Theorem new_Query_options `{Host} (env : Env) :
  new_Query env = Thrown (SbError "Database access must be initialized first" None)
  \/ exists options,
       new_Query env = Ok options
       /\ multipleStatements options = true
       /\ user options = MARIA_USER env
       /\ (env_truthy (MARIA_SOCKET_PATH env) = true ->
           socketPath options = Some "/var/run/mysqld/mysqld.sock"
           /\ host options = None)
       /\ (env_truthy (MARIA_SOCKET_PATH env) = false ->
           socketPath options = None /\ host options = MARIA_HOST env
           /\ env_truthy (MARIA_HOST env) = true).
Proof.
  unfold new_Query.
  destruct (env_truthy (MARIA_USER env)); [| now left].
  destruct (env_truthy (MARIA_PASSWORD env)); [| now left].
  destruct (env_truthy (MARIA_SOCKET_PATH env)) eqn:Hs.
  - rewrite andb_false_r. cbn [negb orb]. right. eexists. split; [reflexivity |].
    cbn. repeat split; discriminate.
  - destruct (env_truthy (MARIA_HOST env)) eqn:Hh; [| now left].
    cbn [negb orb andb]. right. eexists. split; [reflexivity |].
    cbn. repeat split; discriminate.
Qed.

Lemma new_Query_options_witness :
  new_Query (H := sample_host) sample_env
  = Thrown (SbError "Database access must be initialized first" None)
  \/ exists options,
       new_Query (H := sample_host) sample_env = Ok options
       /\ multipleStatements options = true
       /\ user options = MARIA_USER sample_env
       /\ (env_truthy (MARIA_SOCKET_PATH sample_env) = true ->
           socketPath options = Some "/var/run/mysqld/mysqld.sock"
           /\ host options = None)
       /\ (env_truthy (MARIA_SOCKET_PATH sample_env) = false ->
           socketPath options = None /\ host options = MARIA_HOST sample_env
           /\ env_truthy (MARIA_HOST sample_env) = true).
Proof. apply (new_Query_options (H := sample_host) sample_env). Defined.

(** ** The properties above at sample inputs *)

Lemma getDefinition_failure_leaves_object_witness :
  @DriverError sample_host = DriverError
  /\ tableDefinitions
       (snd (getDefinition sample_objects rejecting_driver "data" "Users" empty_world))
     = <[ "data" := default empty_container (tableDefinitions empty_world !! "data") ]>
         (tableDefinitions empty_world)
  /\ cached sample_objects
       (snd (getDefinition sample_objects rejecting_driver "data" "Users" empty_world))
       "data" "Users"
     = Ok (match tableDefinitions empty_world !! "data" with
           | Some _ => None
           | None => if inherited "Users" then Some (CForeign "Users") else None
           end).
Proof.
  apply (getDefinition_failure_leaves_object sample_objects rejecting_driver
           "data" "Users" empty_world DriverError).
  - reflexivity.
  - reflexivity.
  - reflexivity.
Defined.

(** After the failed introspection of ("data", "Users") the object of
    "data" is there, and ("data", "toString") is answered from it. *)
Example failed_introspection_then_inherited :
  let w := snd (getDefinition sample_objects rejecting_driver "data" "Users" empty_world) in
  cached sample_objects w "data" "Users" = Ok None
  /\ getDefinition sample_objects rejecting_driver "data" "toString" w
     = (Returns (CForeign "toString"), w).
Proof. vm_compute. repeat split. Qed.

Lemma schema_cache_frame_witness :
  let w := snd (getDefinition sample_objects reliable_driver "data" "Users" empty_world) in
  cached sample_objects w "data" "Users"
  = Ok (Some (CDef (built "data" "Users" sample_meta)))
  /\ cached sample_objects
       (snd (getDefinition sample_objects reliable_driver "data" "Channel" w))
       "data" "Users"
     = cached sample_objects w "data" "Users"
  /\ cached sample_objects
       (snd (invalidateDefinition sample_objects "data" "Channel" w))
       "data" "Users"
     = cached sample_objects w "data" "Users".
Proof.
  apply (schema_cache_frame sample_objects reliable_driver "data" "Channel"
           "data" "Users"
           (snd (getDefinition sample_objects reliable_driver "data" "Users" empty_world))
           (container_set empty_container "Users" (SDef (built "data" "Users" sample_meta)))
           (SDef (built "data" "Users" sample_meta))).
  - discriminate.
  - reflexivity.
  - reflexivity.
Defined.

(** What is not a property of the database's own object can change under
    another lookup: looked up first in its database, the definition of
    the table [__proto__] becomes the prototype of the object created for
    the database, and its fields are then read as tables. *)
Example proto_table_changes_other_answers :
  let w := snd (getDefinition sample_objects reliable_driver "data" "__proto__"
                  empty_world) in
  cached sample_objects empty_world "data" "path" = Ok None
  /\ cached sample_objects w "data" "__proto__"
     = Ok (Some (CDef (built "data" "__proto__" sample_meta)))
  /\ getDefinition sample_objects reliable_driver "data" "path" w
     = (Returns (CForeign "path"), w).
Proof. vm_compute. repeat split. Qed.

Lemma invalidateAllDefinitions_forces_query_witness :
  let w := snd (getDefinition sample_objects reliable_driver "data" "Users" empty_world) in
  trace (snd (invalidateAllDefinitions (H := sample_host) w)) = trace w
  /\ tableDefinitions (snd (invalidateAllDefinitions (H := sample_host) w)) = ∅
  /\ queried (trace (snd (getDefinition sample_objects reliable_driver "data" "Users"
                            (snd (invalidateAllDefinitions (H := sample_host) w)))))
     = queried (trace w) ++ [introspection_sql "data" "Users"].
Proof.
  apply (invalidateAllDefinitions_forces_query sample_objects reliable_driver
           "data" "Users").
  - reflexivity.
  - reflexivity.
Defined.

(** A definition looked up under the database name [constructor] is
    written on the function the array inherits under that name, out of
    reach of [invalidateAllDefinitions]: the next call is answered
    without a query. *)
Example constructor_database_survives_reset :
  let w := snd (getDefinition sample_objects reliable_driver "constructor" "Users"
                  empty_world) in
  let w' := snd (invalidateAllDefinitions (H := sample_host) w) in
  queried (trace w) = ["SELECT * FROM constructor.Users WHERE 1 = 0"]
  /\ getDefinition sample_objects reliable_driver "constructor" "Users" w'
     = (Returns (CDef (built "constructor" "Users" sample_meta)), w').
Proof. vm_compute. repeat split. Qed.

Lemma getDefinition_caches_plain_names_witness :
  let w1 := snd (getDefinition sample_objects reliable_driver "data" "Users" empty_world) in
  queried (trace w1) = queried (trace empty_world) ++ [introspection_sql "data" "Users"]
  /\ (exists data, CDef (built "data" "Users" sample_meta) = CDef (built "data" "Users" data))
  /\ getDefinition sample_objects reliable_driver "data" "Users" w1
     = (Returns (CDef (built "data" "Users" sample_meta)), w1)
  /\ exists w2,
       invalidateDefinition sample_objects "data" "Users" w1 = (Returns tt, w2)
       /\ trace w2 = trace w1
       /\ cached sample_objects w2 "data" "Users" = Ok None
       /\ forall v2 w3,
            getDefinition sample_objects reliable_driver "data" "Users" w2
            = (Returns v2, w3) ->
            queried (trace w3) = queried (trace w2) ++ [introspection_sql "data" "Users"]
            /\ (exists data, v2 = CDef (built "data" "Users" data))
            /\ cached sample_objects w3 "data" "Users" = Ok (Some v2).
Proof.
  apply (getDefinition_caches_plain_names sample_objects reliable_driver "data" "Users"
           empty_world (CDef (built "data" "Users" sample_meta))).
  - reflexivity.
  - reflexivity.
  - reflexivity.
Defined.

Lemma raw_release_balance_witness :
  exists evs,
    snd (raw (H := sample_host) rejecting_driver ["SELECT 1"] empty_world)
    = extend empty_world evs
    /\ release_count evs = conn_count evs
    /\ conn_count evs <= 1
    /\ (conn_count evs = 0 ->
        queried evs = []
        /\ fst (raw (H := sample_host) rejecting_driver ["SELECT 1"] empty_world)
           = Throws DriverError).
Proof.
  apply (raw_release_balance (H := sample_host) rejecting_driver ["SELECT 1"] empty_world).
Defined.

Lemma batchUpdate_connection_count_witness :
  exists evs,
    snd (batchUpdate (H := sample_host) second_fails_driver (sample_rows 3)
           sample_toSQL empty_world)
    = extend empty_world evs
    /\ conn_count evs = length (sample_rows 3) / updateBatchLimit + 1
    /\ release_count evs = 0.
Proof.
  apply (batchUpdate_connection_count (H := sample_host) second_fails_driver
           (sample_rows 3) sample_toSQL (sample_queries 3) empty_world).
  - intros tr. reflexivity.
  - intros tr c. reflexivity.
  - reflexivity.
Defined.

Lemma batchUpdate_render_failure_witness :
  exists e,
    batchUpdate (H := sample_host) reliable_driver [sample_row 0; []; sample_row 2]
      failing_toSQL empty_world
    = (Throws e, empty_world).
Proof.
  apply (batchUpdate_render_failure (H := sample_host) reliable_driver
           [sample_row 0; []; sample_row 2] failing_toSQL empty_world).
  exists [], TypeError. split; [cbn; tauto | reflexivity].
Defined.

Lemma chunks_shape_witness :
  concat (chunks (sample_queries 1001)) = sample_queries 1001
  /\ length (chunks (sample_queries 1001)) = 2
  /\ length (sample_queries 1000) = updateBatchLimit
  /\ length (sample_queries 1) = 1.
Proof.
  destruct (chunks_shape (sample_queries 1001)) as (Hc & Hn & Hfull & Hlast).
  split; [exact Hc |]. split; [exact Hn |]. split.
  - apply (Hfull 0 (sample_queries 1000)); [vm_compute; reflexivity | vm_compute; lia].
  - apply (Hlast (sample_queries 1)). vm_compute. reflexivity.
Defined.

Lemma fetch_agrees_with_check_witness :
  (check (H := sample_host) "FI" sample_news = Ok true
   <-> exists row, In row [ {| Code := "fi"; URL := "https://news.example/";
                               Endpoints := ["rss"] |} ]
                   /\ Code row = lower_string "FI")
  /\ (check (H := sample_host) "FI" sample_news = Ok false ->
      fetch (H := sample_host) sample_randArray sample_parseURL sample_new_sbDate_of
        "FI" None sample_news
      = Thrown (SbError "Extra news code does not exist!" None))
  /\ (check (H := sample_host) "FI" sample_news = Ok true ->
      exists row, In row [ {| Code := "fi"; URL := "https://news.example/";
                              Endpoints := ["rss"] |} ]
                  /\ Code row = lower_string "FI"
                  /\ fetch (H := sample_host) sample_randArray sample_parseURL
                       sample_new_sbDate_of "FI" None sample_news
                     = fetch_from sample_randArray sample_parseURL sample_new_sbDate_of
                         row None).
Proof.
  apply (fetch_agrees_with_check (H := sample_host) sample_randArray sample_parseURL
           sample_new_sbDate_of "FI" None sample_news).
  reflexivity.
Defined.

Lemma fetch_respects_query_witness :
  exists item,
    item_matches (lower_string "ELECTION") item = true
    /\ Some "Election Results" = item_title item
    /\ None = item_content item
    /\ Some "https://news.example/2" = link_or_url item.
Proof.
  apply (fetch_respects_query (H := sample_host) sample_randArray sample_parseURL
           sample_new_sbDate_of "fi" "ELECTION" sample_news
           {| title := Some "Election Results"; content := None;
              link := Some "https://news.example/2";
              published := sample_new_sbDate_of (Some "Sun, 01 Nov 2026 12:34:56 GMT") |}).
  - intros A l x Hx. destruct l as [|y l]; [discriminate |].
    injection Hx as ->. now left.
  - discriminate.
  - reflexivity.
Defined.

Lemma absent_table_is_remembered_witness :
  let st1 := snd (loadData (H := sample_host) sample_JSON_parse empty_news_db fresh_news) in
  reloadData (H := sample_host) sample_JSON_parse sample_news_db st1 = (Ok tt, st1)
  /\ en_data st1 = Sources []
  /\ check (H := sample_host) "fi" st1 = Ok false.
Proof.
  apply (absent_table_is_remembered (H := sample_host) sample_JSON_parse
           empty_news_db sample_news_db fresh_news "fi").
  - reflexivity.
  - reflexivity.
Defined.

Lemma reloadData_bad_row_witness :
  exists e st',
    reloadData (H := sample_host) sample_JSON_parse broken_news_db sample_news
    = (Thrown e, st')
    /\ en_data st' = NoData
    /\ check (H := sample_host) "fi" st' = Thrown TypeError
    /\ fetch (H := sample_host) sample_randArray sample_parseURL sample_new_sbDate_of
         "fi" None st' = Thrown TypeError.
Proof.
  apply (reloadData_bad_row (H := sample_host) sample_JSON_parse sample_randArray
           sample_parseURL sample_new_sbDate_of broken_news_db sample_news "fi" None).
  - reflexivity.
  - eexists _, _. split; [left; reflexivity | reflexivity].
Defined.

Lemma runtime_counts_calls_witness :
  let r := runtime_run sample_calls new_Runtime in
  commandsUsed r = Num (Z.of_nat (count_call is_CommandUsed sample_calls))
  /\ rejectedCommands r = Num (Z.of_nat (count_call is_CommandRejected sample_calls))
  /\ scriptHotloads r = Num (Z.of_nat (count_call is_ScriptHotloaded sample_calls))
  /\ forall channel,
       inherited channel = false ->
       banphraseTimeouts r !! channel
       = if timeouts_of channel sample_calls =? 0 then None
         else Some (Num (Z.of_nat (timeouts_of channel sample_calls))).
Proof.
  apply (runtime_counts_calls sample_calls). reflexivity.
Defined.

Lemma inherited_channel_miscounted_witness :
  banphraseTimeouts (incrementBanphraseTimeouts "constructor" new_Runtime)
    !! "constructor" = Some NaN
  /\ banphraseTimeouts
       (Nat.iter 3 (incrementBanphraseTimeouts "constructor") new_Runtime)
       !! "constructor"
     = Some (Num (Z.of_nat 2)).
Proof.
  apply (inherited_channel_miscounted "constructor" 1).
  - reflexivity.
  - discriminate.
  - reflexivity.
Defined.

Lemma invalid_definition_cannot_proceed_witness :
  let c := new_MarkovChain (H := sample_host) (list string) (list string)
             sample_parse_definition sample_Markov broken_chain_row in
  let e := SbError (H := sample_host)
             ("Markov chain model ID " +:+ to_string (row_ID broken_chain_row)
              +:+ " has invalid definition. Cannot proceed") None in
  sentences (list string) (list string) nat string sample_Markov sample_definition_of 1
    sample_sentence None c
  = (Thrown e, c)
  /\ words (list string) (list string) nat string sample_Markov sample_definition_of 1
       sample_sentence None c
     = (Thrown e, c)
  /\ train (list string) (list string) string string sample_Markov sample_definition_of
       sample_train "a b" c
     = (Thrown e, c).
Proof.
  apply (invalid_definition_cannot_proceed (H := sample_host) (list string) (list string)
           nat string string sample_parse_definition sample_Markov sample_definition_of 1
           sample_sentence sample_sentence sample_train broken_chain_row "{" None "a b").
  - reflexivity.
  - discriminate.
  - reflexivity.
Defined.

(** The same for a row whose definition is the text [null]. *)
Example null_definition_sample :
  let c := new_MarkovChain (H := sample_host) (list string) (list string)
             sample_parse_definition sample_Markov null_chain_row in
  mc_Definition c = DNull
  /\ fst (train (list string) (list string) string string sample_Markov
            sample_definition_of sample_train "a b" c)
     = Thrown (SbError "Markov chain model ID 7 has invalid definition. Cannot proceed"
                 None).
Proof. split; reflexivity. Qed.

Lemma destroy_before_use_throws_witness :
  let c := new_MarkovChain (H := sample_host) (list string) (list string)
             sample_parse_definition sample_Markov sample_chain_row in
  mc_model c = None
  /\ destroy (list string) (list string) c = (Thrown TypeError, c).
Proof.
  apply (destroy_before_use_throws (H := sample_host) (list string) (list string)
           sample_parse_definition sample_Markov sample_chain_row "{}").
  - reflexivity.
  - discriminate.
Defined.

Lemma model_loaded_once_witness :
  let c := new_MarkovChain (H := sample_host) (list string) (list string)
             sample_parse_definition sample_Markov sample_chain_row in
  let trained := train (list string) (list string) string string sample_Markov
                   sample_definition_of sample_train "a b" c in
  let m1 := snd (sample_train (sample_Markov (Some [])) "a b") in
  let j1 := default (default [] (sample_definition_of (sample_Markov (Some []))))
              (sample_definition_of m1) in
  fst trained = fst (sample_train (sample_Markov (Some [])) "a b")
  /\ mc_model (snd trained) = Some m1
  /\ mc_Definition (snd trained) = DParsed j1
  /\ fst (sentences (list string) (list string) nat string sample_Markov
            sample_definition_of 1 sample_sentence None (snd trained))
     = fst (sample_sentence m1 (default 1 None))
  /\ fst (destroy (list string) (list string) (snd trained)) = Ok tt
  /\ mc_Definition (snd (destroy (list string) (list string) (snd trained))) = DParsed j1
  /\ fst (sentences (list string) (list string) nat string sample_Markov
            sample_definition_of 1 sample_sentence None
            (snd (destroy (list string) (list string) (snd trained))))
     = fst (sample_sentence (sample_Markov (Some j1)) (default 1 None)).
Proof.
  apply (model_loaded_once (H := sample_host) (list string) (list string) nat string
           string sample_parse_definition sample_Markov sample_definition_of 1
           sample_sentence sample_train
           sample_chain_row "{}" [] None "a b").
  - reflexivity.
  - discriminate.
  - reflexivity.
Defined.

(** With the sample library, which trains into the object it is given,
    the model rebuilt after [destroy] speaks the text trained before. *)
Example rebuilt_model_is_trained :
  let c := new_MarkovChain (H := sample_host) (list string) (list string)
             sample_parse_definition sample_Markov sample_chain_row in
  let trained := train (list string) (list string) string string sample_Markov
                   sample_definition_of sample_train "a b" c in
  mc_Definition c = DParsed []
  /\ mc_Definition (snd trained) = DParsed ["a b"]
  /\ fst (sentences (list string) (list string) nat string sample_Markov
            sample_definition_of 1 sample_sentence None
            (snd (destroy (list string) (list string) (snd trained))))
     = Ok "a b".
Proof. repeat split. Qed.
